(** * tools/gpstring.py: the gdb pretty-printer of libGPC's GPString

    The script is glue between three parties: the Python interpreter (name
    resolution, the str type and its codecs), the gdb scripting host (type
    lookup, value handles, debuggee memory) and the list of registered
    pretty-printers.  The development embeds the script as state-passing
    functions over a model of those parties and proves what the script does
    when gdb loads it and when its callbacks run.

    Layout: Python text and the two codecs the formatter goes through;
    gdb's types, value handles and the debuggee; the interpreter state and
    its error monad; the script itself, statement by statement; the
    vocabulary of the statements and a small debuggee to run the script on;
    then the theorems, C1 to C10. *)

From Stdlib Require Import ZArith NArith Lia List Bool Ascii String.
From Stdlib.Strings Require Byte.
From stdpp Require Import gmap strings list fin_maps.

Set Default Proof Using "Type".

(** ** Python text *)

(** A Python [str] is a sequence of Unicode code points; [bytes] is a
    sequence of octets. *)
Definition codepoint := N.
Definition pystr := list codepoint.
Definition pybytes := list Byte.byte.

(** A literal of the source, code point by code point. *)
Definition lit (s : string) : pystr :=
  map N_of_ascii (list_ascii_of_string s).

(** The double quote, U+0022, which the source writes escaped, and the
    backslash, U+005C. *)
Definition dquote : codepoint := 34%N.
Definition backslash : codepoint := 92%N.

Module Codec.

Local Open Scope N_scope.

(** Octet of a number below 256. *)
Definition octet (n : N) : Byte.byte :=
  match Byte.of_N n with
  | Some b => b
  | None => Byte.x00
  end.

(** *** bytes.decode("utf-8"), strict

    Continuation octets are 10xxxxxx; the lead octet fixes the length.
    Overlong forms, surrogates and code points above U+10FFFF are refused,
    as CPython's decoder does with errors="strict". *)
Definition continuation (b : Byte.byte) : option N :=
  let n := Byte.to_N b in
  if (0x80 <=? n) && (n <? 0xC0) then Some (n - 0x80) else None.

Definition surrogate (c : N) : bool := (0xD800 <=? c) && (c <=? 0xDFFF).

Fixpoint utf8_decode (bs : pybytes) : option pystr :=
  match bs with
  | [] => Some []
  | b0 :: r0 =>
    let n0 := Byte.to_N b0 in
    if n0 <? 0x80 then
      match utf8_decode r0 with Some s => Some (n0 :: s) | None => None end
    else if n0 <? 0xC2 then None
    else if n0 <? 0xE0 then
      match r0 with
      | b1 :: r1 =>
        match continuation b1, utf8_decode r1 with
        | Some c1, Some s => Some ((n0 - 0xC0) * 64 + c1 :: s)
        | _, _ => None
        end
      | _ => None
      end
    else if n0 <? 0xF0 then
      match r0 with
      | b1 :: b2 :: r2 =>
        match continuation b1, continuation b2, utf8_decode r2 with
        | Some c1, Some c2, Some s =>
          let c := (n0 - 0xE0) * 4096 + c1 * 64 + c2 in
          if (0x800 <=? c) && negb (surrogate c) then Some (c :: s) else None
        | _, _, _ => None
        end
      | _ => None
      end
    else if n0 <? 0xF5 then
      match r0 with
      | b1 :: b2 :: b3 :: r3 =>
        match continuation b1, continuation b2, continuation b3,
              utf8_decode r3 with
        | Some c1, Some c2, Some c3, Some s =>
          let c := (n0 - 0xF0) * 262144 + c1 * 4096 + c2 * 64 + c3 in
          if (0x10000 <=? c) && (c <=? 0x10FFFF) then Some (c :: s) else None
        | _, _, _, _ => None
        end
      | _ => None
      end
    else None
  end.

(** *** str.encode("unicode_escape")

    Follows CPython's PyUnicode_AsUnicodeEscapeString case by case:
    printable ASCII is copied, except the backslash, which is doubled;
    tab, line feed and carriage return get their letter escapes; the rest
    of U+0000..U+00FF becomes \xHH, U+0100..U+FFFF becomes \uHHHH and
    anything above becomes \UHHHHHHHH, in lowercase hexadecimal.  No case
    mentions the double quote: it is printable ASCII. *)
Definition hexdigit (n : N) : Byte.byte :=
  if n <? 10 then octet (48 + n) else octet (87 + n).

Fixpoint hexdigits (width : nat) (n : N) : pybytes :=
  match width with
  | O => []
  | S w => hexdigits w (n / 16) ++ [hexdigit (n mod 16)]
  end.

Definition escape_codepoint (ch : codepoint) : pybytes :=
  if ch <? 0x100 then
    if (32 <=? ch) && (ch <? 127) then
      if negb (ch =? 92) then [octet ch] else [octet 92; octet 92]
    else if ch =? 9 then [octet 92; octet 116]
    else if ch =? 10 then [octet 92; octet 110]
    else if ch =? 13 then [octet 92; octet 114]
    else octet 92 :: octet 120 :: hexdigits 2 ch
  else if ch <? 0x10000 then octet 92 :: octet 117 :: hexdigits 4 ch
  else octet 92 :: octet 85 :: hexdigits 8 ch.

Definition unicode_escape (s : pystr) : pybytes :=
  flat_map escape_codepoint s.

End Codec.


(** ** gdb: types, value handles, the debuggee *)

(** A [gdb.Type] is a named type of the debuggee or a pointer to one;
    [type_str] is what Python's str gives for it. *)
Inductive gdb_type :=
| TNamed (name : pystr)
| TPointer (target : gdb_type).

#[global] Instance gdb_type_eq_dec : EqDecision gdb_type.
Proof. solve_decision. Defined.

Fixpoint type_str (t : gdb_type) : pystr :=
  match t with
  | TNamed name => name
  | TPointer target => type_str target ++ lit " *"
  end.

(** A [gdb.Value] handle: a scalar (integer or pointer) with its numeric
    contents, or an object of the debuggee that sits at an address and is
    fetched when it is needed. *)
Inductive gdb_value :=
| Scalar (ty : gdb_type) (contents : Z)
| Object (ty : gdb_type) (address : Z).

Definition value_type (v : gdb_value) : gdb_type :=
  match v with
  | Scalar ty _ => ty
  | Object ty _ => ty
  end.

(** What an evaluation can raise. *)
Inductive exn :=
| NameError (name : string)
| AttributeError
| TypeError
| RecursionError
| ValueError
| UnicodeDecodeError
| GdbError (msg : string)
| GdbMemoryError (address : Z).

(** The debuggee as gdb sees it.  The layout of GPStringHeader is declared
    in the C library, not in the script: the offset and type of a member,
    the decoding of an integer member and the default rendering of a value
    are the host's. *)
Record inferior := {
  has_type : pystr -> bool;
  sizeof : gdb_type -> Z;
  memory : Z -> option Byte.byte;
  field : gdb_type -> pystr -> option (Z * gdb_type);
  fetch_int : gdb_type -> Z -> exn + Z;
  format : gdb_value -> exn + pystr;
  fetchlimit : nat
}.

(** ** The interpreter *)

(** The formatter object: an instance of the class GPStringPrinter, whose
    only attribute is the handle given to the constructor. *)
Record GPStringPrinter := { val : gdb_value }.

Inductive function_name :=
| Fgp_str_lookup_function
| Fgp_const_str_lookup_function.

(** The Python objects the script can hold in a name or hand to gdb. *)
Inductive pyval :=
| PyNone
| PyStr (s : pystr)
| PyModuleGdb
| PyClassGPStringPrinter
| PyFunction (f : function_name)
| PyPrinter (p : GPStringPrinter).

(** Calls into gdb that can raise, with their arguments, in the order made. *)
Inductive host_call :=
| CLookupType (name : pystr)
| CCast (v : gdb_value) (t : gdb_type)
| CSub (v : gdb_value) (n : Z)
| CDereference (v : gdb_value)
| CGetItem (v : gdb_value) (member : pystr)
| CString (v : gdb_value) (length : gdb_value)
| CStr (v : gdb_value).

Record event := { ev_call : host_call; ev_fault : option exn }.

(** The module namespace, gdb's list of pretty-printers and the record of
    host calls made so far. *)
Record state := {
  globals : gmap string pyval;
  pretty_printers : list pyval;
  calls : list event
}.

Inductive outcome (A : Type) :=
| Ok (a : A)
| Raise (e : exn).
Arguments Ok {A} a.
Arguments Raise {A} e.

(** A statement or expression: it may change the state and either yields a
    value or raises.  What was done before a raise stays done. *)
Definition M (A : Type) : Type := state -> outcome A * state.

Definition ret {A} (a : A) : M A := fun st => (Ok a, st).
Definition raise {A} (e : exn) : M A := fun st => (Raise e, st).
Definition bind {A B} (m : M A) (k : A -> M B) : M B := fun st =>
  match m st with
  | (Ok a, st') => k a st'
  | (Raise e, st') => (Raise e, st')
  end.

Notation "x <- m ;; k" := (bind m (fun x => k))
  (at level 62, m at next level, right associativity).
Notation "m ;;; k" := (bind m (fun _ => k))
  (at level 62, right associativity).

(** LOAD_NAME / LOAD_GLOBAL: the module namespace; a name bound there
    neither by this module nor by anything else is a NameError (none of the
    names the script loads this way is a builtin). *)
Definition load_name (name : string) : M pyval := fun st =>
  match globals st !! name with
  | Some v => (Ok v, st)
  | None => (Raise (NameError name), st)
  end.

(** STORE_NAME: import, class and def statements bind a name. *)
Definition store_name (name : string) (v : pyval) : M unit := fun st =>
  (Ok tt, {| globals := <[name := v]> (globals st);
             pretty_printers := pretty_printers st;
             calls := calls st |}).

(** Attribute access on what the name gdb is bound to. *)
Definition gdb_module : M unit :=
  g <- load_name "gdb" ;;
  match g with
  | PyModuleGdb => ret tt
  | _ => raise AttributeError
  end.

(** list.append on gdb.pretty_printers. *)
Definition pretty_printers_append (x : pyval) : M unit := fun st =>
  (Ok tt, {| globals := globals st;
             pretty_printers := pretty_printers st ++ [x];
             calls := calls st |}).

(** A call into gdb: it is recorded, and its fault, if any, is raised. *)
Definition host {A} (c : host_call) (answer : exn + A) : M A := fun st =>
  let fault := match answer with inl e => Some e | inr _ => None end in
  let st' := {| globals := globals st;
                pretty_printers := pretty_printers st;
                calls := calls st ++ [{| ev_call := c; ev_fault := fault |}] |} in
  match answer with
  | inl e => (Raise e, st')
  | inr a => (Ok a, st')
  end.

(** bytes.decode() with the default codec, UTF-8. *)
Definition bytes_decode (bs : pybytes) : M pystr :=
  match Codec.utf8_decode bs with
  | Some s => ret s
  | None => raise UnicodeDecodeError
  end.

Section Host.

Variable inf : inferior.

(** *** The gdb API the script uses *)

(** Fetch [n] octets from address [a] on.  An unreadable octet makes the
    fetch fail; which address the fault names is the host's business, and
    no statement below relies on it. *)
Fixpoint read_memory (a : Z) (n : nat) : exn + pybytes :=
  match n with
  | O => inr []
  | S n' =>
    match memory inf a with
    | None => inl (GdbMemoryError a)
    | Some b =>
      match read_memory (a + 1) n' with
      | inl e => inl e
      | inr bs => inr (b :: bs)
      end
    end
  end.

(** Fetch up to the first NUL, within the host's fetch limit. *)
Fixpoint read_cstring (a : Z) (limit : nat) : exn + pybytes :=
  match limit with
  | O => inr []
  | S limit' =>
    match memory inf a with
    | None => inl (GdbMemoryError a)
    | Some b =>
      if Byte.eqb b Byte.x00 then inr []
      else
        match read_cstring (a + 1) limit' with
        | inl e => inl e
        | inr bs => inr (b :: bs)
        end
    end
  end.

(** gdb.lookup_type(name) *)
Definition lookup_type (name : pystr) : M gdb_type :=
  gdb_module ;;;
  host (CLookupType name)
    (if has_type inf name then inr (TNamed name)
     else inl (GdbError "No type named.")).

(** Value.cast(type): a scalar keeps its contents under the new type.
    Objects are refused here; which of them gdb would let decay to a
    pointer is not modelled, and no statement below relies on it. *)
Definition value_cast (v : gdb_value) (t : gdb_type) : M gdb_value :=
  host (CCast v t)
    match v with
    | Scalar _ n => inr (Scalar t n)
    | Object _ _ => inl (GdbError "Invalid cast.")
    end.

(** Value - n: pointer arithmetic is scaled by the size of the target. *)
Definition value_sub (v : gdb_value) (n : Z) : M gdb_value :=
  host (CSub v n)
    match v with
    | Scalar (TPointer target) a =>
      inr (Scalar (TPointer target) (a - n * sizeof inf target))
    | Scalar t x => inr (Scalar t (x - n))
    | Object _ _ => inl (GdbError "Argument to arithmetic operation not a number.")
    end.

(** Value.dereference(): the object a pointer points to, not yet fetched. *)
Definition value_dereference (v : gdb_value) : M gdb_value :=
  host (CDereference v)
    match v with
    | Scalar (TPointer target) a => inr (Object target a)
    | _ => inl (GdbError "Attempt to take contents of a non-pointer value.")
    end.

(** Value[member]: the member of an object, at its offset. *)
Definition value_getitem (v : gdb_value) (member : pystr) : M gdb_value :=
  host (CGetItem v member)
    match v with
    | Object t a =>
      match field inf t member with
      | Some (off, ft) => inr (Object ft (a + off))
      | None => inl (GdbError "There is no member with that name.")
      end
    | Scalar _ _ => inl (GdbError "Attempt to extract a component of a value that is not a structure.")
    end.

(** The integer a handle stands for; an object is fetched now. *)
Definition value_as_long (v : gdb_value) : exn + Z :=
  match v with
  | Scalar _ n => inr n
  | Object t a => fetch_int inf t a
  end.

(** Value.string("utf-8", length = len): the bytes are fetched at the
    address the pointer holds, [len] of them, or up to the first NUL when
    [len] is -1, and decoded. *)
Definition value_string (v : gdb_value) (len : gdb_value) : M pystr :=
  host (CString v len)
    match value_as_long len with
    | inl e => inl e
    | inr L =>
      match v with
      | Scalar (TPointer _) a =>
        if (L <? -1)%Z then inl ValueError
        else
          match (if (L =? -1)%Z then read_cstring a (fetchlimit inf)
                 else read_memory a (Z.to_nat L)) with
          | inl e => inl e
          | inr bs =>
            match Codec.utf8_decode bs with
            | Some s => inr s
            | None => inl UnicodeDecodeError
            end
          end
      | _ => inl (GdbError "Trying to read string with inappropriate type.")
      end
    end.

(** str(value): gdb's default rendering. *)
Definition value_str (v : gdb_value) : M pystr :=
  host (CStr v) (format inf v).

(** *** class GPStringPrinter *)

Definition to_string (self : GPStringPrinter) : M pystr :=
  T_str_data <- lookup_type (lit "GPStringHeader") ;;
  val_as_data_ptr <- value_cast (val self) (TPointer T_str_data) ;;
  before <- value_sub val_as_data_ptr 1 ;;
  str_data <- value_dereference before ;;
  T_char <- lookup_type (lit "char") ;;
  let T_cstr := TPointer T_char in
  as_cstr <- value_cast (val self) T_cstr ;;
  len <- value_getitem str_data (lit "length") ;;
  val_contents <- value_string as_cstr len ;;
  val_contents <- bytes_decode (Codec.unicode_escape val_contents) ;;
  shown <- value_str str_data ;;
  ret ([dquote] ++ val_contents ++ dquote :: lit ", " ++ shown).

End Host.

(** *** The lookup functions

    A call runs the callee one frame deeper; [call] stands for the call
    instruction at the current depth. *)
Section Frame.

Variable call : pyval -> gdb_value -> M pyval.

Definition gp_str_lookup_function_def (v : gdb_value) : M pyval :=
  if decide (type_str (value_type v) = lit "GPString") then
    f <- load_name "StringPrinter" ;;
    call f v
  else ret PyNone.

Definition gp_const_str_lookup_function_def (v : gdb_value) : M pyval :=
  if decide (type_str (value_type v) = lit "const GPString") then
    f <- load_name "StringPrinter" ;;
    call f v
  else ret PyNone.

End Frame.

(** Calling an object with one argument, [depth] frames left before the
    interpreter's recursion limit: a class makes an instance (its __init__
    stores the argument), a function runs its body, anything else is not
    callable. *)
Fixpoint call (depth : nat) (callee : pyval) (arg : gdb_value) : M pyval :=
  match depth with
  | O => raise RecursionError
  | S d =>
    match callee with
    | PyClassGPStringPrinter => ret (PyPrinter {| val := arg |})
    | PyFunction Fgp_str_lookup_function =>
      gp_str_lookup_function_def (call d) arg
    | PyFunction Fgp_const_str_lookup_function =>
      gp_const_str_lookup_function_def (call d) arg
    | _ => raise TypeError
    end
  end.

(** CPython's default recursion limit is 1000 frames: the callee that gdb
    calls gets one, its own callees the rest. *)
Definition frames_left : nat := 999.
Definition recursion_limit : nat := S frames_left.

(** The two callbacks as gdb would call them. *)
Definition gp_str_lookup_function (v : gdb_value) : M pyval :=
  call recursion_limit (PyFunction Fgp_str_lookup_function) v.

Definition gp_const_str_lookup_function (v : gdb_value) : M pyval :=
  call recursion_limit (PyFunction Fgp_const_str_lookup_function) v.

(** *** The module body *)

(** Lines 1 to 26: the imports, the class statement and the two defs. *)
Definition definitions : M unit :=
  store_name "gdb" PyModuleGdb ;;;
  store_name "gdb" PyModuleGdb ;;;
  store_name "GPStringPrinter" PyClassGPStringPrinter ;;;
  store_name "gp_str_lookup_function" (PyFunction Fgp_str_lookup_function) ;;;
  store_name "gp_const_str_lookup_function"
    (PyFunction Fgp_const_str_lookup_function).

(** gdb.pretty_printers.append(name): the receiver is evaluated first, the
    argument next, and then the call is made. *)
Definition register (name : string) : M unit :=
  gdb_module ;;;
  f <- load_name name ;;
  pretty_printers_append f.

Definition line_28 : M unit := register "str_lookup_function".
Definition line_29 : M unit := register "const_str_lookup_function".

Definition script : M unit :=
  definitions ;;; line_28 ;;; line_29.

(** A namespace nothing was bound in yet, next to whatever printers gdb
    already has. *)
Definition fresh_namespace (printers : list pyval) : state :=
  {| globals := ∅; pretty_printers := printers; calls := [] |}.

(** ** Vocabulary of the statements

    What the theorems below talk about: the text the escaping yields, a
    buffer in memory, the record of host calls, the namespace after the
    definitions, the verdict of a lookup, and how a reader delimits a
    double-quoted literal. *)

(** The text [s.encode("unicode_escape").decode()] evaluates to. *)
Definition escaped (s : pystr) : pystr :=
  map Byte.to_N (Codec.unicode_escape s).

(** An octet below 128: one ASCII character. *)
Definition ascii_octet (b : Byte.byte) : Prop := (Byte.to_N b < 128)%N.

(** The octets [bs] sit in the debuggee's memory from address [a] on. *)
Definition buffer_at (inf : inferior) (a : Z) (bs : pybytes) : Prop :=
  forall (i : nat) (b : Byte.byte),
    bs !! i = Some b -> memory inf (a + Z.of_nat i) = Some b.

(** The state after the calls [evs] were recorded on top of [st]. *)
Definition recorded (st : state) (evs : list event) : state :=
  {| globals := globals st;
     pretty_printers := pretty_printers st;
     calls := calls st ++ evs |}.

(** A call that passed and a call that failed with [e], as recorded. *)
Definition passed (c : host_call) : event :=
  {| ev_call := c; ev_fault := None |}.
Definition failed (c : host_call) (e : exn) : event :=
  {| ev_call := c; ev_fault := Some e |}.

(** The calls recorded between two states. *)
Definition new_calls (before after : state) : list event :=
  drop (length (calls before)) (calls after).

(** No failed call among them. *)
Definition clean (evs : list event) : Prop :=
  Forall (fun ev => ev_fault ev = None) evs.

(** A computation lets the faults of the host through: it touches nothing
    but the record of calls; every call it made before its last one
    passed; and if its last call failed, it raises that call's fault. *)
Definition transparent {A} (m : M A) : Prop :=
  forall st : state,
    exists evs : list event,
      snd (m st) = recorded st evs
      /\ match fst (m st) with
         | Ok _ => clean evs
         | Raise e =>
           clean evs
           \/ exists pre c, evs = pre ++ [failed c e] /\ clean pre
         end.

(** The header type as [lookup_type] returns it. *)
Definition T_header : gdb_type := TNamed (lit "GPStringHeader").
Definition T_char : gdb_type := TNamed (lit "char").

(** The calls a run of [to_string] makes up to and including the fetch of
    the text, on a handle with contents [a] when the length member has
    offset [off] and type [lenty]. *)
Definition calls_to_fetch (inf : inferior) (v : gdb_value) (a off : Z)
    (lenty : gdb_type) : list host_call :=
  let header_at := (a - 1 * sizeof inf T_header)%Z in
  [ CLookupType (lit "GPStringHeader");
    CCast v (TPointer T_header);
    CSub (Scalar (TPointer T_header) a) 1;
    CDereference (Scalar (TPointer T_header) header_at);
    CLookupType (lit "char");
    CCast v (TPointer T_char);
    CGetItem (Object T_header header_at) (lit "length");
    CString (Scalar (TPointer T_char) a) (Object lenty (header_at + off)) ].

(** The fetch of the text, when the length member holds [L >= 0]: [L]
    octets from the pointer's address on, decoded as UTF-8. *)
Definition fetched_text (inf : inferior) (a L : Z) : exn + pystr :=
  match read_memory inf a (Z.to_nat L) with
  | inl e => inl e
  | inr bs =>
    match Codec.utf8_decode bs with
    | Some s => inr s
    | None => inl UnicodeDecodeError
    end
  end.

(** The same debuggee with other contents of memory. *)
Definition with_memory (inf : inferior) (m : Z -> option Byte.byte) : inferior :=
  {| has_type := has_type inf;
     sizeof := sizeof inf;
     memory := m;
     field := field inf;
     fetch_int := fetch_int inf;
     format := format inf;
     fetchlimit := fetchlimit inf |}.

(** The namespace the imports, the class statement and the defs leave. *)
Definition defined (printers : list pyval) : state :=
  {| globals :=
       <["gp_const_str_lookup_function" := PyFunction Fgp_const_str_lookup_function]>
         (<["gp_str_lookup_function" := PyFunction Fgp_str_lookup_function]>
            (<["GPStringPrinter" := PyClassGPStringPrinter]>
               (<["gdb" := PyModuleGdb]> (<["gdb" := PyModuleGdb]> ∅))));
     pretty_printers := printers;
     calls := [] |}.

(** The text a callback compares: [str(val.type)]. *)
Definition type_name (v : gdb_value) : pystr := type_str (value_type v).

(** Line 20 and line 25: the expression [StringPrinter(val)], evaluated in
    the frame of a callback that gdb called. *)
Definition construct_printer (v : gdb_value) : M pyval :=
  f <- load_name "StringPrinter" ;;
  call frames_left f v.



(** Neither a double quote nor a backslash. *)
Definition plain (c : codepoint) : Prop := c <> dquote /\ c <> backslash.

(** Reading a double-quoted literal: after the opening quote the body runs
    up to the first double quote that no backslash escapes.  The result is
    the body as written and what follows the closing quote. *)
Definition prepend (xs : pystr) (r : option (pystr * pystr)) :
    option (pystr * pystr) :=
  match r with
  | Some (body, rest) => Some (xs ++ body, rest)
  | None => None
  end.

Fixpoint scan_literal (s : pystr) : option (pystr * pystr) :=
  match s with
  | [] => None
  | c :: s' =>
    if (c =? dquote)%N then Some ([], s')
    else if (c =? backslash)%N then
      match s' with
      | [] => None
      | c' :: s'' => prepend [c; c'] (scan_literal s'')
      end
    else prepend [c] (scan_literal s')
  end.

Definition read_literal (s : pystr) : option (pystr * pystr) :=
  match s with
  | c :: s' => if (c =? dquote)%N then scan_literal s' else None
  | [] => None
  end.

(** Printable ASCII, U+0020 to U+007E. *)
Definition printable (c : codepoint) : Prop := (32 <= c < 127)%N.

(** A Unicode scalar value: at most U+10FFFF and not a surrogate. *)
Definition scalar_value (c : codepoint) : Prop :=
  (c <= 0x10FFFF)%N /\ Codec.surrogate c = false.



(** The state the imports, the class statement and the defs make of any
    state: five bindings on top of what was bound. *)
Definition after_definitions (st : state) : state :=
  {| globals :=
       <["gp_const_str_lookup_function" := PyFunction Fgp_const_str_lookup_function]>
         (<["gp_str_lookup_function" := PyFunction Fgp_str_lookup_function]>
            (<["GPStringPrinter" := PyClassGPStringPrinter]>
               (<["gdb" := PyModuleGdb]>
                  (<["gdb" := PyModuleGdb]> (globals st)))));
     pretty_printers := pretty_printers st;
     calls := calls st |}.

(** The state with [xs] appended to gdb's list of pretty-printers. *)
Definition appended (st : state) (xs : list pyval) : state :=
  {| globals := globals st;
     pretty_printers := pretty_printers st ++ xs;
     calls := calls st |}.

(** ** A debuggee to run the script on

    One GPString in memory, the three octets 61 22 62 (an a, a double quote
    and a b) at address 1000, behind a 32-octet header whose length member
    sits at offset 24 and holds 3. *)
Module Demo.

Definition header : gdb_type := TNamed (lit "GPStringHeader").

Definition demo_memory (a : Z) : option Byte.byte :=
  if (a =? 1000)%Z then Some Byte.x61
  else if (a =? 1001)%Z then Some Byte.x22
  else if (a =? 1002)%Z then Some Byte.x62
  else None.

Definition debuggee : inferior := {|
  has_type name :=
    bool_decide (name = lit "GPStringHeader") || bool_decide (name = lit "char");
  sizeof t := if decide (t = header) then 32%Z else 1%Z;
  memory := demo_memory;
  field t member :=
    if decide (t = header) then
      if decide (member = lit "length") then Some (24%Z, TNamed (lit "size_t"))
      else None
    else None;
  fetch_int t a := if (a =? 992)%Z then inr 3%Z else inl (GdbMemoryError a);
  format v :=
    match v with
    | Object _ 968%Z => inr (lit "{length = 3}")
    | _ => inl (GdbError "Cannot access memory.")
    end;
  fetchlimit := 200
|}.

(** A debugger session that knows no type at all. *)
Definition stripped : inferior := {|
  has_type _ := false;
  sizeof _ := 1%Z;
  memory _ := None;
  field _ _ := None;
  fetch_int _ a := inl (GdbMemoryError a);
  format _ := inl (GdbError "Cannot access memory.");
  fetchlimit := 200
|}.

(** The handle of a variable of type GPString that points at the text. *)
Definition handle : gdb_value := Scalar (TNamed (lit "GPString")) 1000.

(** The namespace once gdb has run the script from a fresh one. *)
Definition loaded : state := snd (script (fresh_namespace [])).

(** The same namespace in a session where another script has bound the
    name StringPrinter to the class. *)
Definition aliased : state :=
  snd (store_name "StringPrinter" PyClassGPStringPrinter loaded).

(** Memory that agrees with the demo's on the three octets of the text and
    is readable garbage everywhere else. *)
Definition scrambled (x : Z) : option Byte.byte :=
  if ((1000 <=? x) && (x <? 1003))%Z then demo_memory x
  else Some Byte.xff.

(** The debuggee with an empty GPString: the length member holds 0 and
    no octet of the text is readable. *)
Definition empty : inferior := {|
  has_type := has_type debuggee;
  sizeof := sizeof debuggee;
  memory _ := None;
  field := field debuggee;
  fetch_int t a := if (a =? 992)%Z then inr 0%Z else inl (GdbMemoryError a);
  format v :=
    match v with
    | Object _ 968%Z => inr (lit "{length = 0}")
    | _ => inl (GdbError "Cannot access memory.")
    end;
  fetchlimit := 200
|}.

(** Memory that holds the octets 61 62 63 (abc) at address 1000. *)
Definition abc_memory (a : Z) : option Byte.byte :=
  if (a =? 1000)%Z then Some Byte.x61
  else if (a =? 1001)%Z then Some Byte.x62
  else if (a =? 1002)%Z then Some Byte.x63
  else None.

(** Memory whose second octet of the text cannot be read. *)
Definition torn_memory (a : Z) : option Byte.byte :=
  if (a =? 1000)%Z then Some Byte.x61
  else if (a =? 1002)%Z then Some Byte.x62
  else None.

(** A session in which an earlier script bound the two names that lines 28
    and 29 mention, here to None and to the class. *)
Definition preloaded : state :=
  {| globals := <["const_str_lookup_function" := PyClassGPStringPrinter]>
                  (<["str_lookup_function" := PyNone]> ∅);
     pretty_printers := [PyNone];
     calls := [] |}.

(** A session in which only the first of the two names is bound. *)
Definition half_loaded : state :=
  {| globals := <["str_lookup_function" := PyNone]> ∅;
     pretty_printers := [PyNone];
     calls := [] |}.



End Demo.

(** * Theorems *)

(** ** The codecs *)

Module CodecFacts.
Import Codec.
Local Open Scope N_scope.

Lemma to_N_octet (n : N) : n < 256 -> Byte.to_N (octet n) = n.
Proof.
  intros Hn. unfold octet.
  destruct (Byte.of_N n) as [b|] eqn:E.
  - now apply Byte.to_of_N.
  - apply Byte.of_N_None_iff in E. lia.
Qed.

Lemma octet_ascii (n : N) : n < 128 -> ascii_octet (octet n).
Proof. intros Hn. unfold ascii_octet. rewrite to_N_octet; lia. Qed.

Lemma hexdigit_ascii (n : N) : n < 16 -> ascii_octet (hexdigit n).
Proof.
  intros Hn. unfold hexdigit.
  destruct (n <? 10) eqn:E; apply octet_ascii; lia.
Qed.

Lemma hexdigits_ascii (w : nat) (n : N) : Forall ascii_octet (hexdigits w n).
Proof.
  revert n. induction w as [|w IH]; intros n; simpl.
  - constructor.
  - apply Forall_app. split; [apply IH|].
    constructor; [|constructor].
    apply hexdigit_ascii. apply N.mod_lt. lia.
Qed.

Ltac bool_hyps :=
  repeat match goal with
         | H : (_ && _) = true |- _ => apply andb_true_iff in H as [? ?]
         | H : (_ <? _) = true |- _ => apply N.ltb_lt in H
         | H : (_ <=? _) = true |- _ => apply N.leb_le in H
         | H : (_ <? _) = false |- _ => apply N.ltb_ge in H
         | H : (_ =? _) = false |- _ => apply N.eqb_neq in H
         | H : (_ =? _) = true |- _ => apply N.eqb_eq in H
         end.

Lemma escape_codepoint_ascii (ch : codepoint) :
  Forall ascii_octet (escape_codepoint ch).
Proof.
  unfold escape_codepoint.
  repeat match goal with
         | |- context [if ?b then _ else _] => destruct b eqn:?
         end;
    bool_hyps;
    repeat (first [ apply hexdigits_ascii
                  | constructor; [apply octet_ascii; lia|]
                  | constructor ]).
Qed.

Lemma unicode_escape_ascii (s : pystr) :
  Forall ascii_octet (unicode_escape s).
Proof.
  unfold unicode_escape. induction s as [|ch s IH]; simpl.
  - constructor.
  - apply Forall_app. split; [apply escape_codepoint_ascii | exact IH].
Qed.

(** On ASCII the decoder is the identity, octet by octet. *)
Lemma utf8_decode_ascii (bs : pybytes) :
  Forall ascii_octet bs -> utf8_decode bs = Some (map Byte.to_N bs).
Proof.
  induction 1 as [|b bs Hb _ IH]; [reflexivity|].
  cbn [utf8_decode map]. unfold ascii_octet in Hb.
  apply N.ltb_lt in Hb. rewrite Hb, IH. reflexivity.
Qed.

End CodecFacts.

Lemma decode_unicode_escape (s : pystr) :
  Codec.utf8_decode (Codec.unicode_escape s) = Some (escaped s).
Proof.
  apply CodecFacts.utf8_decode_ascii, CodecFacts.unicode_escape_ascii.
Qed.

Lemma escaped_app (s t : pystr) : escaped (s ++ t) = escaped s ++ escaped t.
Proof.
  unfold escaped, Codec.unicode_escape.
  now rewrite flat_map_app, map_app.
Qed.

(** The two codecs on inputs whose CPython results are known: every class
    of escape, and well-formed and ill-formed UTF-8. *)
Example unicode_escape_samples :
  escaped (lit "a\b ~" ++ [9; 10; 13; 0; 31; 127; 233; 255; 256; 8364; 65535;
                            65536; 128512]%N)
  = lit "a\\b ~\t\n\r\x00\x1f\x7f\xe9\xff\u0100\u20ac\uffff\U00010000\U0001f600".
Proof. reflexivity. Qed.

Example utf8_decode_samples :
  let decode := fun ns => Codec.utf8_decode (map Codec.octet ns) in
  decode [0x61; 0xC3; 0xA9; 0xE2; 0x82; 0xAC; 0xF0; 0x9F; 0x98; 0x80]%N
  = Some [97; 233; 8364; 128512]%N
  /\ decode [0xC2; 0x80; 0xE0; 0xA0; 0x80; 0xEF; 0xBF; 0xBF; 0xF4; 0x8F; 0xBF; 0xBF]%N
     = Some [128; 2048; 65535; 1114111]%N
  /\ Forall (fun ns => decode ns = None)
       [ [0x80]; [0xC0; 0x80]; [0xC1; 0xBF]; [0xE0; 0x9F; 0xBF];
         [0xED; 0xA0; 0x80]; [0xF0; 0x8F; 0xBF; 0xBF]; [0xF4; 0x90; 0x80; 0x80];
         [0xF5; 0x80; 0x80; 0x80]; [0xE2; 0x82]; [0xC3; 0x41]; [0xFF] ]%N.
Proof.
  repeat apply conj; [reflexivity | reflexivity |].
  repeat (constructor; [reflexivity|]). constructor.
Qed.

(** ** Running statements *)

Lemma read_memory_buffer (inf : inferior) (bs : pybytes) :
  forall a : Z, buffer_at inf a bs -> read_memory inf a (length bs) = inr bs.
Proof.
  induction bs as [|b bs IH]; intros a Hbuf; [reflexivity|].
  cbn [length read_memory].
  pose proof (Hbuf O b eq_refl) as H0. rewrite Z.add_0_r in H0. rewrite H0.
  rewrite IH; [reflexivity|].
  intros i c Hi. specialize (Hbuf (S i) c Hi).
  replace (a + 1 + Z.of_nat i)%Z with (a + Z.of_nat (S i))%Z by lia.
  exact Hbuf.
Qed.

Lemma bind_ok {A B} (m : M A) (k : A -> M B) (st st' : state) (a : A) :
  m st = (Ok a, st') -> bind m k st = k a st'.
Proof. intros H. unfold bind. now rewrite H. Qed.

Lemma bind_raise {A B} (m : M A) (k : A -> M B) (st st' : state) (e : exn) :
  m st = (Raise e, st') -> bind m k st = (Raise e, st').
Proof. intros H. unfold bind. now rewrite H. Qed.

Lemma gdb_module_ok (st : state) :
  globals st !! "gdb" = Some PyModuleGdb -> gdb_module st = (Ok tt, st).
Proof. intros H. unfold gdb_module, bind, load_name. now rewrite H. Qed.

Lemma recorded_nil (st : state) : recorded st [] = st.
Proof. destruct st. unfold recorded. simpl. now rewrite app_nil_r. Qed.

Lemma recorded_recorded (st : state) (xs ys : list event) :
  recorded (recorded st xs) ys = recorded st (xs ++ ys).
Proof. unfold recorded. simpl. now rewrite app_assoc. Qed.

Lemma host_ok {A} (c : host_call) (answer : exn + A) (a : A) (st : state) :
  answer = inr a -> host c answer st = (Ok a, recorded st [passed c]).
Proof. intros ->. reflexivity. Qed.

Lemma host_raise {A} (c : host_call) (answer : exn + A) (e : exn) (st : state) :
  answer = inl e ->
  host c answer st = (@Raise A e, recorded st [failed c e]).
Proof. intros ->. reflexivity. Qed.

Lemma lookup_type_ok (inf : inferior) (name : pystr) (st : state) :
  globals st !! "gdb" = Some PyModuleGdb ->
  has_type inf name = true ->
  lookup_type inf name st
  = (Ok (TNamed name), recorded st [passed (CLookupType name)]).
Proof.
  intros Hg Ht. unfold lookup_type.
  rewrite (bind_ok _ _ _ _ _ (gdb_module_ok st Hg)).
  apply host_ok. now rewrite Ht.
Qed.

Lemma value_cast_scalar (ty t : gdb_type) (n : Z) (st : state) :
  value_cast (Scalar ty n) t st
  = (Ok (Scalar t n), recorded st [passed (CCast (Scalar ty n) t)]).
Proof. reflexivity. Qed.

Lemma value_sub_pointer (inf : inferior) (t : gdb_type) (a n : Z) (st : state) :
  value_sub inf (Scalar (TPointer t) a) n st
  = (Ok (Scalar (TPointer t) (a - n * sizeof inf t)),
     recorded st [passed (CSub (Scalar (TPointer t) a) n)]).
Proof. reflexivity. Qed.

Lemma value_dereference_pointer (t : gdb_type) (a : Z) (st : state) :
  value_dereference (Scalar (TPointer t) a) st
  = (Ok (Object t a), recorded st [passed (CDereference (Scalar (TPointer t) a))]).
Proof. reflexivity. Qed.

Lemma value_getitem_member (inf : inferior) (t ft : gdb_type) (a off : Z)
    (member : pystr) (st : state) :
  field inf t member = Some (off, ft) ->
  value_getitem inf (Object t a) member st
  = (Ok (Object ft (a + off)),
     recorded st [passed (CGetItem (Object t a) member)]).
Proof. intros H. unfold value_getitem. rewrite H. reflexivity. Qed.

(** ** GPStringPrinter.to_string *)

Section ToString.

Variables (inf : inferior) (st : state).
Variables (ty lenty : gdb_type) (a off : Z).

Let self : GPStringPrinter := {| val := Scalar ty a |}.
Let header_at : Z := (a - 1 * sizeof inf T_header)%Z.

Hypothesis gdb_imported : globals st !! "gdb" = Some PyModuleGdb.
Hypothesis header_known : has_type inf (lit "GPStringHeader") = true.
Hypothesis char_known : has_type inf (lit "char") = true.
Hypothesis length_member : field inf T_header (lit "length") = Some (off, lenty).

(** Up to the fetch of the text the run is the same whatever the memory
    holds; what is left is the fetch, the escaping and the rendering of the
    header. *)
Lemma to_string_prefix :
  to_string inf self st
  = (val_contents <- value_string inf (Scalar (TPointer T_char) a)
                                      (Object lenty (header_at + off)) ;;
     val_contents <- bytes_decode (Codec.unicode_escape val_contents) ;;
     shown <- value_str inf (Object T_header header_at) ;;
     ret ([dquote] ++ val_contents ++ dquote :: lit ", " ++ shown))
      (recorded st
         (map passed (removelast (calls_to_fetch inf (val self) a off lenty)))).
Proof using gdb_imported header_known char_known length_member.
  unfold to_string, self. cbn [val].
  rewrite (bind_ok _ _ _ _ _ (lookup_type_ok inf _ st gdb_imported header_known)).
  rewrite (bind_ok _ _ _ _ _ (value_cast_scalar _ _ _ _)), recorded_recorded.
  rewrite (bind_ok _ _ _ _ _ (value_sub_pointer _ _ _ _ _)), recorded_recorded.
  rewrite (bind_ok _ _ _ _ _ (value_dereference_pointer _ _ _)),
    recorded_recorded.
  rewrite (bind_ok _ _ _ _ _
             (lookup_type_ok inf _ (recorded st _) gdb_imported char_known)),
    recorded_recorded.
  rewrite (bind_ok _ _ _ _ _ (value_cast_scalar _ _ _ _)), recorded_recorded.
  rewrite (bind_ok _ _ _ _ _ (value_getitem_member _ _ _ _ _ _ _ length_member)),
    recorded_recorded.
  reflexivity.
Qed.

End ToString.

Lemma value_string_fetch (inf : inferior) (t lenty : gdb_type) (a la L : Z)
    (st : state) :
  fetch_int inf lenty la = inr L ->
  (0 <= L)%Z ->
  value_string inf (Scalar (TPointer t) a) (Object lenty la) st
  = host (CString (Scalar (TPointer t) a) (Object lenty la))
         (fetched_text inf a L) st.
Proof.
  intros HL Hpos. unfold value_string, fetched_text. cbn [value_as_long].
  rewrite HL.
  destruct (Z.ltb_spec L (-1)) as [?|_]; [lia|].
  destruct (Z.eqb_spec L (-1)) as [?|_]; [lia|].
  reflexivity.
Qed.

Lemma bytes_decode_unicode_escape (s : pystr) (st : state) :
  bytes_decode (Codec.unicode_escape s) st = (Ok (escaped s), st).
Proof. unfold bytes_decode. now rewrite decode_unicode_escape. Qed.

(** ** Loading the script *)

Lemma definitions_run (printers : list pyval) :
  definitions (fresh_namespace printers) = (Ok tt, defined printers).
Proof. reflexivity. Qed.

Lemma defined_names (printers : list pyval) :
  dom (globals (defined printers))
  = ({["gdb"; "GPStringPrinter"; "gp_str_lookup_function";
       "gp_const_str_lookup_function"]} : gset string).
Proof.
  unfold defined. cbn [globals].
  rewrite !dom_insert_L, dom_empty_L.
  apply set_eq. intros x.
  rewrite !elem_of_union, !elem_of_singleton, elem_of_empty. tauto.
Qed.

Lemma defined_unbound (printers : list pyval) (name : string) :
  name <> "gdb" -> name <> "GPStringPrinter" ->
  name <> "gp_str_lookup_function" ->
  name <> "gp_const_str_lookup_function" ->
  globals (defined printers) !! name = None.
Proof.
  intros H1 H2 H3 H4. unfold defined. cbn [globals].
  rewrite !lookup_insert_ne by congruence. apply lookup_empty.
Qed.

Lemma defined_gdb (printers : list pyval) :
  globals (defined printers) !! "gdb" = Some PyModuleGdb.
Proof. unfold defined. cbn [globals]. now simplify_map_eq. Qed.

Lemma register_unbound (name : string) (st : state) :
  globals st !! "gdb" = Some PyModuleGdb ->
  globals st !! name = None ->
  register name st = (Raise (NameError name), st).
Proof.
  intros Hg Hn. unfold register.
  rewrite (bind_ok _ _ _ _ _ (gdb_module_ok st Hg)).
  unfold bind, load_name. now rewrite Hn.
Qed.

Lemma script_run (printers : list pyval) :
  script (fresh_namespace printers)
  = (Raise (NameError "str_lookup_function"), defined printers).
Proof.
  unfold script.
  rewrite (bind_ok _ _ _ _ _ (definitions_run printers)).
  apply bind_raise. unfold line_28.
  apply register_unbound; [apply defined_gdb|].
  apply defined_unbound; discriminate.
Qed.

(** C2.  Run from a fresh namespace, the script stops at line 28 with a
    NameError for str_lookup_function and leaves gdb's list of
    pretty-printers as it found it: no callback is appended. *)
Theorem script_appends_no_printer (printers : list pyval) :
  fst (script (fresh_namespace printers))
  = Raise (NameError "str_lookup_function")
  /\ pretty_printers (snd (script (fresh_namespace printers))) = printers.
Proof. rewrite script_run. split; reflexivity. Qed.

(** C3.  The statements before line 28 bind exactly the names gdb,
    GPStringPrinter, gp_str_lookup_function and
    gp_const_str_lookup_function, the last two to the two lookup functions;
    str_lookup_function and const_str_lookup_function are not among them,
    and each registration statement, evaluated in that namespace, raises
    the NameError of the name it mentions and changes nothing. *)
Theorem registrations_name_unbound_functions (printers : list pyval) :
  let st := snd (definitions (fresh_namespace printers)) in
  dom (globals st)
  = ({["gdb"; "GPStringPrinter"; "gp_str_lookup_function";
       "gp_const_str_lookup_function"]} : gset string)
  /\ globals st !! "gp_str_lookup_function"
     = Some (PyFunction Fgp_str_lookup_function)
  /\ globals st !! "gp_const_str_lookup_function"
     = Some (PyFunction Fgp_const_str_lookup_function)
  /\ globals st !! "str_lookup_function" = None
  /\ globals st !! "const_str_lookup_function" = None
  /\ line_28 st = (Raise (NameError "str_lookup_function"), st)
  /\ line_29 st = (Raise (NameError "const_str_lookup_function"), st).
Proof.
  rewrite definitions_run. cbn [snd].
  assert (H28 : globals (defined printers) !! "str_lookup_function" = None)
    by (apply defined_unbound; discriminate).
  assert (H29 : globals (defined printers) !! "const_str_lookup_function" = None)
    by (apply defined_unbound; discriminate).
  repeat apply conj.
  - apply defined_names.
  - unfold defined. cbn [globals]. now simplify_map_eq.
  - unfold defined. cbn [globals]. now simplify_map_eq.
  - exact H28.
  - exact H29.
  - apply register_unbound; [apply defined_gdb | exact H28].
  - apply register_unbound; [apply defined_gdb | exact H29].
Qed.

(** ** The lookup functions *)

Lemma call_S (d : nat) (callee : pyval) (arg : gdb_value) :
  call (S d) callee arg
  = match callee with
    | PyClassGPStringPrinter => ret (PyPrinter {| val := arg |})
    | PyFunction Fgp_str_lookup_function =>
      gp_str_lookup_function_def (call d) arg
    | PyFunction Fgp_const_str_lookup_function =>
      gp_const_str_lookup_function_def (call d) arg
    | _ => raise TypeError
    end.
Proof. reflexivity. Qed.

Lemma gp_str_lookup_function_miss (st : state) (v : gdb_value) :
  type_name v <> lit "GPString" ->
  gp_str_lookup_function v st = (Ok PyNone, st).
Proof.
  intros Hne. unfold gp_str_lookup_function.
  unfold recursion_limit. rewrite call_S. cbn match.
  unfold gp_str_lookup_function_def. fold (type_name v).
  destruct (decide (type_name v = lit "GPString")); [contradiction|reflexivity].
Qed.

Lemma gp_str_lookup_function_hit (st : state) (v : gdb_value) :
  type_name v = lit "GPString" ->
  gp_str_lookup_function v st = construct_printer v st.
Proof.
  intros Heq. unfold gp_str_lookup_function.
  unfold recursion_limit. rewrite call_S. cbn match.
  unfold gp_str_lookup_function_def. fold (type_name v).
  destruct (decide (type_name v = lit "GPString")); [reflexivity|contradiction].
Qed.

Lemma gp_const_str_lookup_function_miss (st : state) (v : gdb_value) :
  type_name v <> lit "const GPString" ->
  gp_const_str_lookup_function v st = (Ok PyNone, st).
Proof.
  intros Hne. unfold gp_const_str_lookup_function.
  unfold recursion_limit. rewrite call_S. cbn match.
  unfold gp_const_str_lookup_function_def. fold (type_name v).
  destruct (decide (type_name v = lit "const GPString"));
    [contradiction|reflexivity].
Qed.

Lemma gp_const_str_lookup_function_hit (st : state) (v : gdb_value) :
  type_name v = lit "const GPString" ->
  gp_const_str_lookup_function v st = construct_printer v st.
Proof.
  intros Heq. unfold gp_const_str_lookup_function.
  unfold recursion_limit. rewrite call_S. cbn match.
  unfold gp_const_str_lookup_function_def. fold (type_name v).
  destruct (decide (type_name v = lit "const GPString"));
    [reflexivity|contradiction].
Qed.

Lemma construct_printer_unbound (st : state) (v : gdb_value) :
  globals st !! "StringPrinter" = None ->
  construct_printer v st = (Raise (NameError "StringPrinter"), st).
Proof.
  intros H. unfold construct_printer, bind, load_name. now rewrite H.
Qed.

(** C4.  Whatever the namespace binds, a lookup function that returns
    something other than None, a formatter in particular, was given a
    handle whose type renders as exactly the text it compares with:
    GPString for the plain function, const GPString for the other.  The
    comparison is equality of the two texts, code point by code point. *)
Theorem lookup_returns_printer_only_on_exact_name
    (st st' : state) (v : gdb_value) (r : pyval) :
  (gp_str_lookup_function v st = (Ok r, st') ->
   r <> PyNone -> type_name v = lit "GPString")
  /\ (gp_const_str_lookup_function v st = (Ok r, st') ->
      r <> PyNone -> type_name v = lit "const GPString").
Proof.
  split; intros H Hr.
  - destruct (decide (type_name v = lit "GPString")) as [E|E]; [exact E|].
    rewrite (gp_str_lookup_function_miss st v E) in H.
    inversion H; subst. contradiction.
  - destruct (decide (type_name v = lit "const GPString")) as [E|E];
      [exact E|].
    rewrite (gp_const_str_lookup_function_miss st v E) in H.
    inversion H; subst. contradiction.
Qed.

Lemma lookup_returns_printer_only_on_exact_name_witness :
  type_name Demo.handle = lit "GPString"
  /\ type_name (Scalar (TNamed (lit "const GPString")) 1000)
     = lit "const GPString".
Proof.
  split.
  - apply (proj1 (lookup_returns_printer_only_on_exact_name
                    Demo.aliased Demo.aliased Demo.handle
                    (PyPrinter {| val := Demo.handle |}))).
    + vm_compute. reflexivity.
    + discriminate.
  - apply (proj2 (lookup_returns_printer_only_on_exact_name
                    Demo.aliased Demo.aliased
                    (Scalar (TNamed (lit "const GPString")) 1000)
                    (PyPrinter
                       {| val := Scalar (TNamed (lit "const GPString")) 1000 |}))).
    + vm_compute. reflexivity.
    + discriminate.
Defined.

(** C5.  On a handle whose type renders as neither GPString nor
    const GPString both lookup functions return None, in every state and
    without changing it. *)
Theorem lookup_declines_other_names (st : state) (v : gdb_value) :
  type_name v <> lit "GPString" ->
  type_name v <> lit "const GPString" ->
  gp_str_lookup_function v st = (Ok PyNone, st)
  /\ gp_const_str_lookup_function v st = (Ok PyNone, st).
Proof.
  intros H1 H2. split.
  - now apply gp_str_lookup_function_miss.
  - now apply gp_const_str_lookup_function_miss.
Qed.

Lemma lookup_declines_other_names_witness :
  gp_str_lookup_function (Scalar (TPointer (TNamed (lit "GPString"))) 1000)
                         Demo.aliased
  = (Ok PyNone, Demo.aliased)
  /\ gp_const_str_lookup_function
       (Scalar (TPointer (TNamed (lit "GPString"))) 1000) Demo.aliased
     = (Ok PyNone, Demo.aliased).
Proof.
  apply (lookup_declines_other_names Demo.aliased
           (Scalar (TPointer (TNamed (lit "GPString"))) 1000)).
  - vm_compute. discriminate.
  - vm_compute. discriminate.
Defined.

(** C8.  In the namespace the script leaves behind, the class is bound to
    GPStringPrinter and nothing is bound to StringPrinter, so a lookup
    function given a handle whose type renders as the text it compares with
    raises the NameError of StringPrinter instead of returning a formatter. *)
Theorem matching_lookup_raises_name_error
    (printers : list pyval) (v : gdb_value) :
  let st := snd (script (fresh_namespace printers)) in
  globals st !! "GPStringPrinter" = Some PyClassGPStringPrinter
  /\ globals st !! "StringPrinter" = None
  /\ (type_name v = lit "GPString" ->
      gp_str_lookup_function v st = (Raise (NameError "StringPrinter"), st))
  /\ (type_name v = lit "const GPString" ->
      gp_const_str_lookup_function v st
      = (Raise (NameError "StringPrinter"), st)).
Proof.
  rewrite script_run. cbn [snd].
  assert (Hun : globals (defined printers) !! "StringPrinter" = None)
    by (apply defined_unbound; discriminate).
  repeat apply conj.
  - unfold defined. cbn [globals]. now simplify_map_eq.
  - exact Hun.
  - intros H. rewrite (gp_str_lookup_function_hit _ _ H).
    now apply construct_printer_unbound.
  - intros H. rewrite (gp_const_str_lookup_function_hit _ _ H).
    now apply construct_printer_unbound.
Qed.

Lemma matching_lookup_raises_name_error_witness :
  gp_str_lookup_function Demo.handle Demo.loaded
  = (Raise (NameError "StringPrinter"), Demo.loaded)
  /\ gp_const_str_lookup_function
       (Scalar (TNamed (lit "const GPString")) 1000) Demo.loaded
     = (Raise (NameError "StringPrinter"), Demo.loaded).
Proof.
  split.
  - apply (proj1 (proj2 (proj2
             (matching_lookup_raises_name_error [] Demo.handle)))).
    reflexivity.
  - apply (proj2 (proj2 (proj2
             (matching_lookup_raises_name_error []
                (Scalar (TNamed (lit "const GPString")) 1000))))).
    reflexivity.
Defined.

(** Names that contain, or differ only in spacing or case from, the texts
    compared are declined like any other. *)
Example near_misses_are_declined :
  Forall (fun name =>
            gp_str_lookup_function (Scalar (TNamed name) 1000) Demo.aliased
            = (Ok PyNone, Demo.aliased)
            /\ gp_const_str_lookup_function (Scalar (TNamed name) 1000)
                 Demo.aliased
               = (Ok PyNone, Demo.aliased))
         [lit "GPString "; lit " GPString"; lit "gpstring"; lit "GPStringHeader";
          lit "const  GPString"; lit "GPString const"; lit "struct GPString";
          lit "volatile GPString"; lit ""].
Proof.
  repeat (constructor;
          [split; [apply gp_str_lookup_function_miss
                  | apply gp_const_str_lookup_function_miss];
           vm_compute; discriminate|]).
  constructor.
Qed.

(** ** The verdict of a lookup *)

Lemma load_name_state (name : string) (st : state) :
  snd (load_name name st) = st.
Proof. unfold load_name. now destruct (globals st !! name). Qed.






(** ** Faults of the host *)

Lemma transparent_ret {A} (a : A) : transparent (ret a).
Proof.
  intros st. exists []. split; [symmetry; apply recorded_nil | constructor].
Qed.

Lemma transparent_raise {A} (e : exn) : transparent (@raise A e).
Proof.
  intros st. exists []. split; [symmetry; apply recorded_nil|].
  left. constructor.
Qed.

Lemma transparent_load_name (name : string) : transparent (load_name name).
Proof.
  intros st. exists []. unfold load_name.
  destruct (globals st !! name); cbn [fst snd].
  - split; [symmetry; apply recorded_nil | constructor].
  - split; [symmetry; apply recorded_nil | left; constructor].
Qed.

Lemma transparent_host {A} (c : host_call) (answer : exn + A) :
  transparent (host c answer).
Proof.
  intros st. destruct answer as [e|a].
  - exists [failed c e]. split; [reflexivity|].
    right. exists [], c. split; [reflexivity | constructor].
  - exists [passed c]. split; [reflexivity|].
    constructor; [reflexivity | constructor].
Qed.

Lemma transparent_bind {A B} (m : M A) (k : A -> M B) :
  transparent m -> (forall a, transparent (k a)) -> transparent (bind m k).
Proof.
  intros Hm Hk st. unfold bind.
  destruct (Hm st) as (evs & Hst & Hres).
  destruct (m st) as [[a|e] st']; cbn [fst snd] in *; subst st'.
  - destruct (Hk a (recorded st evs)) as (evs' & Hst' & Hres').
    exists (evs ++ evs'). rewrite Hst', recorded_recorded.
    split; [reflexivity|].
    destruct (fst (k a (recorded st evs))) as [b|e].
    + now apply Forall_app.
    + destruct Hres' as [Hc | (pre & c & -> & Hpre)].
      * left. now apply Forall_app.
      * right. exists (evs ++ pre), c. rewrite app_assoc.
        split; [reflexivity | now apply Forall_app].
  - exists evs. split; [reflexivity | exact Hres].
Qed.

Lemma transparent_gdb_module : transparent gdb_module.
Proof.
  apply transparent_bind; [apply transparent_load_name|].
  intros []; first [apply transparent_ret | apply transparent_raise].
Qed.

Lemma transparent_bytes_decode (bs : pybytes) : transparent (bytes_decode bs).
Proof.
  unfold bytes_decode.
  destruct (Codec.utf8_decode bs);
    [apply transparent_ret | apply transparent_raise].
Qed.

Lemma transparent_to_string (inf : inferior) (self : GPStringPrinter) :
  transparent (to_string inf self).
Proof.
  unfold to_string, lookup_type, value_cast, value_sub, value_dereference,
    value_getitem, value_string, value_str.
  repeat first
    [ apply transparent_ret
    | apply transparent_host
    | apply transparent_gdb_module
    | apply transparent_bytes_decode
    | apply transparent_bind
    | intro ].
Qed.

Lemma new_calls_recorded (st : state) (evs : list event) :
  new_calls st (recorded st evs) = evs.
Proof. unfold new_calls, recorded. cbn [calls]. apply drop_app_length. Qed.

(** A failed call among calls of which all but the last passed is the
    last one. *)
Lemma failed_call_is_last (pre : list event) (ev last : event) :
  clean pre -> In ev (pre ++ [last]) -> ev_fault ev <> None -> ev = last.
Proof.
  intros Hpre Hin Hf. apply in_app_or in Hin as [Hin|[Heq|[]]].
  - exfalso. apply Hf.
    unfold clean in Hpre. rewrite Forall_forall in Hpre.
    apply Hpre. now apply list_elem_of_In.
  - now symmetry.
Qed.

(** C7.  Whenever a call that [to_string] made into gdb failed with a
    fault [e], [to_string] raised that very [e]; the failed call is the
    last call it made and every earlier one had passed, so nothing was
    retried or attempted afterwards; and the namespace and the list of
    pretty-printers are as they were. *)
Theorem to_string_raises_the_fault_of_the_host
    (inf : inferior) (self : GPStringPrinter) (st : state)
    (ev : event) (e : exn) :
  let run := to_string inf self st in
  In ev (new_calls st (snd run)) ->
  ev_fault ev = Some e ->
  fst run = Raise e
  /\ (exists pre, calls (snd run) = calls st ++ pre ++ [ev] /\ clean pre)
  /\ globals (snd run) = globals st
  /\ pretty_printers (snd run) = pretty_printers st.
Proof.
  intros run Hin Hf. subst run.
  destruct (transparent_to_string inf self st) as (evs & Hst & Hres).
  rewrite Hst in *. rewrite new_calls_recorded in Hin.
  assert (Hdirty : ~ clean evs).
  { intros Hc. unfold clean in Hc. rewrite Forall_forall in Hc.
    apply list_elem_of_In, Hc in Hin. congruence. }
  destruct (fst (to_string inf self st)) as [s|e'].
  - contradiction.
  - destruct Hres as [Hc | (pre & c & -> & Hpre)]; [contradiction|].
    assert (Hev : ev = failed c e').
    { apply (failed_call_is_last pre); [exact Hpre | exact Hin | congruence]. }
    subst ev. cbn [ev_fault failed] in Hf. injection Hf as ->.
    repeat apply conj; try reflexivity.
    exists pre. split; [reflexivity | exact Hpre].
Qed.

Lemma to_string_raises_the_fault_of_the_host_witness :
  fst (to_string Demo.stripped {| val := Demo.handle |} Demo.loaded)
  = Raise (GdbError "No type named.").
Proof.
  refine (proj1 (to_string_raises_the_fault_of_the_host
                   Demo.stripped {| val := Demo.handle |} Demo.loaded
                   (failed (CLookupType (lit "GPStringHeader"))
                           (GdbError "No type named."))
                   (GdbError "No type named.") _ _)).
  - vm_compute. left. reflexivity.
  - reflexivity.
Defined.

(** ** Where to_string reads *)

Lemma read_memory_ext (inf inf' : inferior) (n : nat) :
  forall a : Z,
    (forall x : Z, (a <= x < a + Z.of_nat n)%Z -> memory inf' x = memory inf x) ->
    read_memory inf' a n = read_memory inf a n.
Proof.
  induction n as [|n IH]; intros a H; [reflexivity|].
  cbn [read_memory]. rewrite (H a) by lia.
  rewrite (IH (a + 1)%Z); [reflexivity|].
  intros x Hx. apply H. lia.
Qed.

Lemma fetched_text_ext (inf inf' : inferior) (a L : Z) :
  (0 <= L)%Z ->
  (forall x : Z, (a <= x < a + L)%Z -> memory inf' x = memory inf x) ->
  fetched_text inf' a L = fetched_text inf a L.
Proof.
  intros HL H. unfold fetched_text.
  rewrite (read_memory_ext inf inf'); [reflexivity|].
  intros x Hx. apply H. lia.
Qed.

(** The whole run on a scalar handle, once the two types are known and the
    header has a length member that holds [L >= 0]. *)
Lemma to_string_run (inf : inferior) (st : state) (ty lenty : gdb_type)
    (a off L : Z) :
  let header_at := (a - 1 * sizeof inf T_header)%Z in
  let v := Scalar ty a in
  let fetch := CString (Scalar (TPointer T_char) a)
                       (Object lenty (header_at + off)) in
  let render := CStr (Object T_header header_at) in
  let before := map passed (removelast (calls_to_fetch inf v a off lenty)) in
  globals st !! "gdb" = Some PyModuleGdb ->
  has_type inf (lit "GPStringHeader") = true ->
  has_type inf (lit "char") = true ->
  field inf T_header (lit "length") = Some (off, lenty) ->
  fetch_int inf lenty (header_at + off) = inr L ->
  (0 <= L)%Z ->
  to_string inf {| val := v |} st
  = match fetched_text inf a L with
    | inl e => (Raise e, recorded st (before ++ [failed fetch e]))
    | inr text =>
      match format inf (Object T_header header_at) with
      | inl e =>
        (Raise e, recorded st (before ++ [passed fetch; failed render e]))
      | inr shown =>
        (Ok ([dquote] ++ escaped text ++ dquote :: lit ", " ++ shown),
         recorded st (before ++ [passed fetch; passed render]))
      end
    end.
Proof.
  intros header_at v fetch render before Hgdb Hhdr Hchar Hfield Hlen HL.
  subst v. rewrite (to_string_prefix inf st ty lenty a off Hgdb Hhdr Hchar Hfield).
  fold header_at. cbn [val]. fold before.
  unfold bind at 1. rewrite (value_string_fetch inf _ _ _ _ L _ Hlen HL).
  fold fetch.
  destruct (fetched_text inf a L) as [e|text].
  - rewrite (host_raise _ _ e _ eq_refl), recorded_recorded. reflexivity.
  - rewrite (host_ok _ _ text _ eq_refl), recorded_recorded.
    rewrite (bind_ok _ _ _ _ _ (bytes_decode_unicode_escape _ _)).
    unfold value_str, bind. fold render.
    destruct (format inf (Object T_header header_at)) as [e|shown].
    + rewrite (host_raise _ _ e _ eq_refl), recorded_recorded.
      rewrite <- app_assoc. reflexivity.
    + rewrite (host_ok _ _ shown _ eq_refl), recorded_recorded.
      rewrite <- app_assoc. reflexivity.
Qed.

Lemma map_ev_call_passed (cs : list host_call) :
  map ev_call (map passed cs) = cs.
Proof. induction cs as [|c cs IH]; [reflexivity|]. cbn. now rewrite IH. Qed.

Lemma fetched_text_buffer (inf : inferior) (a L : Z) (bs : pybytes)
    (text : pystr) :
  Z.of_nat (length bs) = L ->
  buffer_at inf a bs ->
  Codec.utf8_decode bs = Some text ->
  fetched_text inf a L = inr text.
Proof.
  intros HL Hbuf Hutf. unfold fetched_text. rewrite <- HL, Nat2Z.id.
  now rewrite (read_memory_buffer inf bs a Hbuf), Hutf.
Qed.

Lemma to_string_ok (inf : inferior) (st : state) (ty lenty : gdb_type)
    (a off L : Z) (bs : pybytes) (text shown : pystr) :
  let header_at := (a - 1 * sizeof inf T_header)%Z in
  globals st !! "gdb" = Some PyModuleGdb ->
  has_type inf (lit "GPStringHeader") = true ->
  has_type inf (lit "char") = true ->
  field inf T_header (lit "length") = Some (off, lenty) ->
  fetch_int inf lenty (header_at + off) = inr L ->
  Z.of_nat (length bs) = L ->
  buffer_at inf a bs ->
  Codec.utf8_decode bs = Some text ->
  format inf (Object T_header header_at) = inr shown ->
  fst (to_string inf {| val := Scalar ty a |} st)
  = Ok ([dquote] ++ escaped text ++ [dquote] ++ lit ", " ++ shown).
Proof.
  intros header_at Hgdb Hhdr Hchar Hfield Hlen HL Hbuf Hutf Hshown.
  rewrite (to_string_run inf st ty lenty a off L Hgdb Hhdr Hchar Hfield Hlen)
    by lia.
  rewrite (fetched_text_buffer inf a L bs text HL Hbuf Hutf).
  fold header_at. rewrite Hshown. reflexivity.
Qed.

(** C1.  When the header record that ends where the handle points holds
    the length [L] and the [L] octets the handle points at are the UTF-8
    encoding of [text], [to_string] returns a double quote, the
    unicode-escaped [text], a double quote, a comma and a space, and gdb's
    default rendering of the header record. *)
Theorem to_string_quotes_escaped_text_then_header
    (inf : inferior) (st : state) (ty lenty : gdb_type) (a off L : Z)
    (bs : pybytes) (text shown : pystr) :
  let header_at := (a - 1 * sizeof inf T_header)%Z in
  globals st !! "gdb" = Some PyModuleGdb ->
  has_type inf (lit "GPStringHeader") = true ->
  has_type inf (lit "char") = true ->
  field inf T_header (lit "length") = Some (off, lenty) ->
  fetch_int inf lenty (header_at + off) = inr L ->
  Z.of_nat (length bs) = L ->
  buffer_at inf a bs ->
  Codec.utf8_decode bs = Some text ->
  format inf (Object T_header header_at) = inr shown ->
  fst (to_string inf {| val := Scalar ty a |} st)
  = Ok ([dquote] ++ escaped text ++ [dquote] ++ lit ", " ++ shown).
Proof.
  intros header_at. subst header_at. apply to_string_ok.
Qed.

Lemma to_string_quotes_escaped_text_then_header_witness :
  fst (to_string Demo.debuggee {| val := Demo.handle |} Demo.loaded)
  = Ok ([dquote] ++ escaped [97; 34; 98]%N ++ [dquote] ++ lit ", "
        ++ lit "{length = 3}").
Proof.
  apply (to_string_quotes_escaped_text_then_header
           Demo.debuggee Demo.loaded (TNamed (lit "GPString"))
           (TNamed (lit "size_t")) 1000 24 3
           [Byte.x61; Byte.x22; Byte.x62]).
  - reflexivity.
  - reflexivity.
  - reflexivity.
  - reflexivity.
  - reflexivity.
  - reflexivity.
  - intros [|[|[|i]]] b; simpl; intros [= <-]; reflexivity.
  - reflexivity.
  - reflexivity.
Defined.

(** C6.  On a handle with contents [a], with the header's length member
    holding [L]: the calls [to_string] makes begin with the lookup of
    GPStringHeader, the cast of the handle to a pointer to it, the
    subtraction of 1 from that pointer, the dereference of the pointer
    [a - 1 * sizeof GPStringHeader], the lookup of char, the cast of the
    original handle to a pointer to char, the access to the member length
    of the object at [a - 1 * sizeof GPStringHeader], and the string fetch
    through the char pointer [a] with that member as length; the fetch
    reads the [L] octets at [a .. a + L - 1] and decodes them as UTF-8; and
    the run is the same whatever the rest of memory holds. *)
Theorem to_string_steps_back_one_header_and_fetches_length_octets
    (inf : inferior) (st : state) (ty lenty : gdb_type) (a off L : Z) :
  let header_at := (a - 1 * sizeof inf T_header)%Z in
  let self := {| val := Scalar ty a |} in
  globals st !! "gdb" = Some PyModuleGdb ->
  has_type inf (lit "GPStringHeader") = true ->
  has_type inf (lit "char") = true ->
  field inf T_header (lit "length") = Some (off, lenty) ->
  fetch_int inf lenty (header_at + off) = inr L ->
  (0 <= L)%Z ->
  (exists rest,
      map ev_call (new_calls st (snd (to_string inf self st)))
      = calls_to_fetch inf (Scalar ty a) a off lenty ++ rest)
  /\ (forall e, read_memory inf a (Z.to_nat L) = inl e ->
                fst (to_string inf self st) = Raise e)
  /\ (forall bs, read_memory inf a (Z.to_nat L) = inr bs ->
        length bs = Z.to_nat L
        /\ match Codec.utf8_decode bs with
           | None => fst (to_string inf self st) = Raise UnicodeDecodeError
           | Some text =>
             match format inf (Object T_header header_at) with
             | inl e => fst (to_string inf self st) = Raise e
             | inr shown =>
               fst (to_string inf self st)
               = Ok ([dquote] ++ escaped text ++ dquote :: lit ", " ++ shown)
             end
           end)
  /\ (forall m' : Z -> option Byte.byte,
        (forall x : Z, (a <= x < a + L)%Z -> m' x = memory inf x) ->
        to_string (with_memory inf m') self st = to_string inf self st).
Proof.
  intros header_at self Hgdb Hhdr Hchar Hfield Hlen HL. subst self.
  pose proof (to_string_run inf st ty lenty a off L
                Hgdb Hhdr Hchar Hfield Hlen HL) as Hrun.
  cbv zeta in Hrun. fold header_at in Hrun.
  repeat apply conj.
  - rewrite Hrun.
    assert (Hsplit : calls_to_fetch inf (Scalar ty a) a off lenty
                     = removelast (calls_to_fetch inf (Scalar ty a) a off lenty)
                       ++ [CString (Scalar (TPointer T_char) a)
                                   (Object lenty (header_at + off))])
      by reflexivity.
    destruct (fetched_text inf a L) as [e|text];
      [|destruct (format inf (Object T_header header_at)) as [e|shown]];
      cbn [snd]; rewrite new_calls_recorded, map_app, map_ev_call_passed.
    + exists []. rewrite app_nil_r. rewrite Hsplit at 2. reflexivity.
    + exists [CStr (Object T_header header_at)].
      rewrite Hsplit at 2. rewrite <- app_assoc. reflexivity.
    + exists [CStr (Object T_header header_at)].
      rewrite Hsplit at 2. rewrite <- app_assoc. reflexivity.
  - intros e He. rewrite Hrun. unfold fetched_text. rewrite He. reflexivity.
  - intros bs Hbs. split.
    + clear - Hbs. revert a bs Hbs.
      induction (Z.to_nat L) as [|n IH]; intros a bs Hbs; cbn in Hbs.
      * now inversion Hbs.
      * destruct (memory inf a); [|discriminate].
        destruct (read_memory inf (a + 1) n) as [|bs'] eqn:E; [discriminate|].
        inversion Hbs; subst. cbn. f_equal. now apply (IH (a + 1)%Z).
    + rewrite Hrun. unfold fetched_text. rewrite Hbs.
      destruct (Codec.utf8_decode bs); [|reflexivity].
      destruct (format inf (Object T_header header_at)); reflexivity.
  - intros m' Hm'.
    rewrite (to_string_run (with_memory inf m') st ty lenty a off L
               Hgdb Hhdr Hchar Hfield Hlen HL).
    rewrite Hrun.
    rewrite (fetched_text_ext inf (with_memory inf m') a L HL Hm').
    reflexivity.
Qed.

Lemma to_string_steps_back_one_header_and_fetches_length_octets_witness :
  to_string (with_memory Demo.debuggee Demo.scrambled)
            {| val := Demo.handle |} Demo.loaded
  = to_string Demo.debuggee {| val := Demo.handle |} Demo.loaded.
Proof.
  apply (proj2 (proj2 (proj2
           (to_string_steps_back_one_header_and_fetches_length_octets
              Demo.debuggee Demo.loaded (TNamed (lit "GPString"))
              (TNamed (lit "size_t")) 1000 24 3
              eq_refl eq_refl eq_refl eq_refl eq_refl ltac:(lia))))).
  intros x Hx. unfold Demo.scrambled.
  destruct (Z.leb_spec 1000 x); [|lia].
  destruct (Z.ltb_spec x 1003); [reflexivity|lia].
Defined.

(** ** The double quote *)

Module LiteralFacts.
Import Codec CodecFacts.
Local Open Scope N_scope.

Lemma prepend_app (xs ys : pystr) (r : option (pystr * pystr)) :
  prepend xs (prepend ys r) = prepend (xs ++ ys) r.
Proof. destruct r as [[body rest]|]; cbn; [now rewrite app_assoc | easy]. Qed.

Lemma scan_plain (xs : pystr) (r : pystr) :
  Forall plain xs -> scan_literal (xs ++ r) = prepend xs (scan_literal r).
Proof.
  induction 1 as [|c xs [Hq Hb] _ IH]; cbn [app scan_literal].
  - now destruct (scan_literal r) as [[]|].
  - apply N.eqb_neq in Hq, Hb. rewrite Hq, Hb, IH.
    now rewrite prepend_app.
Qed.

Lemma scan_escape (c : codepoint) (xs r : pystr) :
  Forall plain xs ->
  scan_literal (backslash :: c :: xs ++ r)
  = prepend (backslash :: c :: xs) (scan_literal r).
Proof.
  intros H. cbn [scan_literal]. change (backslash =? dquote) with false.
  change (backslash =? backslash) with true. cbn match.
  rewrite (scan_plain xs r H). now rewrite prepend_app.
Qed.

Lemma hexdigit_plain (n : N) : n < 16 -> plain (Byte.to_N (hexdigit n)).
Proof.
  intros Hn. unfold hexdigit, plain, dquote, backslash.
  destruct (n <? 10) eqn:E; bool_hyps; rewrite to_N_octet; lia.
Qed.

Lemma hexdigits_plain (w : nat) (n : N) :
  Forall plain (map Byte.to_N (hexdigits w n)).
Proof.
  revert n. induction w as [|w IH]; intros n; cbn [hexdigits].
  - constructor.
  - rewrite map_app. apply Forall_app. split; [apply IH|].
    constructor; [|constructor].
    apply hexdigit_plain, N.mod_lt. lia.
Qed.

(** What the codec writes for a code point other than the double quote is
    read back whole, as part of the body. *)
Lemma scan_escaped_codepoint (ch : codepoint) (r : pystr) :
  ch <> dquote ->
  scan_literal (escaped [ch] ++ r) = prepend (escaped [ch]) (scan_literal r).
Proof.
  intros Hq. unfold escaped, unicode_escape. cbn [flat_map].
  rewrite app_nil_r. unfold escape_codepoint, dquote in *.
  repeat match goal with
         | |- context [if ?b then _ else _] => destruct b eqn:?
         end;
    bool_hyps; cbn [map];
    rewrite ?to_N_octet by lia;
    try (apply (scan_escape _ (map Byte.to_N (hexdigits _ ch)) r),
           hexdigits_plain).
  - apply (scan_plain [ch] r). constructor; [|constructor].
    split; [exact Hq|]. apply negb_true_iff, N.eqb_neq in Heqb1. exact Heqb1.
  - apply (scan_escape 92 [] r). constructor.
  - apply (scan_escape 116 [] r). constructor.
  - apply (scan_escape 110 [] r). constructor.
  - apply (scan_escape 114 [] r). constructor.
Qed.

Lemma scan_escaped (s r : pystr) :
  dquote ∉ s ->
  scan_literal (escaped s ++ r) = prepend (escaped s) (scan_literal r).
Proof.
  induction s as [|ch s IH]; intros Hs.
  - cbn. now destruct (scan_literal r) as [[]|].
  - change (ch :: s) with ([ch] ++ s). rewrite escaped_app, <- app_assoc.
    rewrite scan_escaped_codepoint, IH, prepend_app; [reflexivity| |].
    + intros Hin. apply Hs. now right.
    + intros ->. apply Hs. now left.
Qed.

Lemma escaped_dquote : escaped [dquote] = [dquote].
Proof. reflexivity. Qed.

(** The body read from the quoted text ends at the first double quote of
    the text itself. *)
Lemma read_quoted (pre post tail : pystr) :
  dquote ∉ pre ->
  read_literal ([dquote] ++ escaped (pre ++ dquote :: post) ++ [dquote] ++ tail)
  = Some (escaped pre, escaped post ++ [dquote] ++ tail).
Proof.
  intros Hpre. cbn [app read_literal]. change (dquote =? dquote) with true.
  cbn match.
  change (pre ++ dquote :: post) with (pre ++ [dquote] ++ post).
  rewrite !escaped_app, escaped_dquote, <- !app_assoc.
  rewrite (scan_escaped pre _ Hpre). cbn [app scan_literal].
  change (dquote =? dquote) with true. cbn. now rewrite app_nil_r.
Qed.

End LiteralFacts.

(** C9.  The codec writes a double quote as it is, so when the text holds
    one, say [text = pre ++ dquote :: post] with no double quote in [pre],
    the output is the opening quote, the escaped [pre], the double quote of
    the text, the escaped [post], the closing quote and the header; a reader
    of double-quoted literals takes the body to end at the double quote of
    the text, and gets the escaped [pre], which is shorter than the escaped
    text, with the remainder of the text left outside the literal. *)
Theorem double_quote_in_text_ends_the_literal_early
    (inf : inferior) (st : state) (ty lenty : gdb_type) (a off L : Z)
    (bs : pybytes) (text shown : pystr) :
  let header_at := (a - 1 * sizeof inf T_header)%Z in
  let tail := lit ", " ++ shown in
  globals st !! "gdb" = Some PyModuleGdb ->
  has_type inf (lit "GPStringHeader") = true ->
  has_type inf (lit "char") = true ->
  field inf T_header (lit "length") = Some (off, lenty) ->
  fetch_int inf lenty (header_at + off) = inr L ->
  Z.of_nat (length bs) = L ->
  buffer_at inf a bs ->
  Codec.utf8_decode bs = Some text ->
  format inf (Object T_header header_at) = inr shown ->
  dquote ∈ text ->
  escaped [dquote] = [dquote]
  /\ exists out pre post : pystr,
      fst (to_string inf {| val := Scalar ty a |} st) = Ok out
      /\ text = pre ++ dquote :: post
      /\ out = [dquote] ++ escaped pre ++ [dquote] ++ escaped post
               ++ [dquote] ++ tail
      /\ read_literal out = Some (escaped pre, escaped post ++ [dquote] ++ tail)
      /\ (length (escaped pre) < length (escaped text))%nat.
Proof.
  intros header_at tail Hgdb Hhdr Hchar Hfield Hlen HL Hbuf Hutf Hshown Hq.
  split; [reflexivity|].
  destruct (list_elem_of_split_l text dquote Hq) as (pre & post & -> & Hpre).
  exists ([dquote] ++ escaped (pre ++ dquote :: post) ++ [dquote] ++ tail),
    pre, post.
  repeat apply conj.
  - exact (to_string_ok inf st ty lenty a off L bs _ shown
             Hgdb Hhdr Hchar Hfield Hlen HL Hbuf Hutf Hshown).
  - reflexivity.
  - change (pre ++ dquote :: post) with (pre ++ [dquote] ++ post).
    rewrite !escaped_app, LiteralFacts.escaped_dquote, <- !app_assoc.
    reflexivity.
  - now apply LiteralFacts.read_quoted.
  - change (pre ++ dquote :: post) with (pre ++ [dquote] ++ post).
    rewrite !escaped_app, LiteralFacts.escaped_dquote, !length_app.
    cbn [length]. lia.
Qed.

Lemma double_quote_in_text_ends_the_literal_early_witness :
  exists out pre post : pystr,
    fst (to_string Demo.debuggee {| val := Demo.handle |} Demo.loaded) = Ok out
    /\ [97; 34; 98]%N = pre ++ dquote :: post
    /\ out = [dquote] ++ escaped pre ++ [dquote] ++ escaped post
             ++ [dquote] ++ lit ", " ++ lit "{length = 3}"
    /\ read_literal out
       = Some (escaped pre,
               escaped post ++ [dquote] ++ lit ", " ++ lit "{length = 3}")
    /\ (length (escaped pre) < length (escaped [97; 34; 98]%N))%nat.
Proof.
  refine (proj2 (double_quote_in_text_ends_the_literal_early
                   Demo.debuggee Demo.loaded (TNamed (lit "GPString"))
                   (TNamed (lit "size_t")) 1000 24 3
                   [Byte.x61; Byte.x22; Byte.x62] [97; 34; 98]%N
                   (lit "{length = 3}")
                   eq_refl eq_refl eq_refl eq_refl eq_refl eq_refl _
                   eq_refl eq_refl _)).
  - intros [|[|[|i]]] b; simpl; intros [= <-]; reflexivity.
  - apply list_elem_of_In. right. left. reflexivity.
Defined.

(** The run on the demo, spelled out: the text a, double quote, b comes out
    between two double quotes with its own double quote untouched, and the
    literal a reader delimits is just a. *)
Example demo_output :
  fst (to_string Demo.debuggee {| val := Demo.handle |} Demo.loaded)
  = Ok ([dquote; 97; dquote; 98; dquote]%N ++ lit ", {length = 3}")
  /\ read_literal ([dquote; 97; dquote; 98; dquote]%N ++ lit ", {length = 3}")
     = Some ([97]%N, [98; dquote]%N ++ lit ", {length = 3}").
Proof. split; reflexivity. Qed.

(** ** More on the escaping of line 15 *)

Module EscapeFacts.
Import Codec CodecFacts.
Local Open Scope N_scope.

Lemma to_N_hexdigit (n : N) :
  n < 16 -> Byte.to_N (hexdigit n) = if n <? 10 then 48 + n else 87 + n.
Proof.
  intros Hn. unfold hexdigit.
  destruct (n <? 10) eqn:E; bool_hyps; apply to_N_octet; lia.
Qed.

Lemma hexdigit_printable (n : N) : n < 16 -> printable (Byte.to_N (hexdigit n)).
Proof.
  intros Hn. rewrite to_N_hexdigit by exact Hn. unfold printable.
  destruct (n <? 10) eqn:E; bool_hyps; lia.
Qed.

Lemma hexdigits_printable (w : nat) (n : N) :
  Forall printable (map Byte.to_N (hexdigits w n)).
Proof.
  revert n. induction w as [|w IH]; intros n; cbn [hexdigits].
  - constructor.
  - rewrite map_app. apply Forall_app. split; [apply IH|].
    constructor; [|constructor].
    apply hexdigit_printable, N.mod_lt. lia.
Qed.

Lemma hexdigits_length (w : nat) (n : N) : length (hexdigits w n) = w.
Proof.
  revert n. induction w as [|w IH]; intros n; cbn [hexdigits]; [reflexivity|].
  rewrite length_app, IH. cbn. lia.
Qed.

Lemma escape_codepoint_printable (ch : codepoint) :
  Forall printable (map Byte.to_N (escape_codepoint ch)).
Proof.
  unfold escape_codepoint, printable.
  repeat match goal with
         | |- context [if ?b then _ else _] => destruct b eqn:?
         end;
    bool_hyps; cbn [map]; rewrite ?to_N_octet by lia;
    repeat (first [ apply hexdigits_printable
                  | constructor; [lia|]
                  | constructor ]).
Qed.

Lemma escape_codepoint_length (ch : codepoint) :
  (1 <= length (escape_codepoint ch) <= 10)%nat.
Proof.
  unfold escape_codepoint.
  repeat match goal with
         | |- context [if ?b then _ else _] => destruct b eqn:?
         end;
    cbn [length]; rewrite ?hexdigits_length; lia.
Qed.

Lemma escape_codepoint_verbatim (ch : codepoint) :
  printable ch -> ch <> backslash ->
  map Byte.to_N (escape_codepoint ch) = [ch].
Proof.
  unfold printable, backslash, escape_codepoint. intros Hp Hb.
  destruct (N.ltb_spec ch 0x100); [|lia].
  destruct (N.leb_spec 32 ch); [|lia].
  destruct (N.ltb_spec ch 127); [|lia].
  destruct (N.eqb_spec ch 92); [contradiction|].
  cbn. rewrite to_N_octet by lia. reflexivity.
Qed.

End EscapeFacts.

Lemma escaped_cons (ch : codepoint) (s : pystr) :
  escaped (ch :: s) = map Byte.to_N (Codec.escape_codepoint ch) ++ escaped s.
Proof. unfold escaped, Codec.unicode_escape. cbn [flat_map]. apply map_app. Qed.

(** X1.  Whatever the text, what line 15 makes of it is printable ASCII
    only, and it has at least one and at most ten characters for each
    character of the text. *)
Theorem escaped_is_printable_and_bounded (s : pystr) :
  Forall printable (escaped s)
  /\ (length s <= length (escaped s) <= 10 * length s)%nat.
Proof.
  induction s as [|ch s [IHp IHl]]; [split; [constructor | cbn; lia]|].
  rewrite escaped_cons. split.
  - apply Forall_app. split; [apply EscapeFacts.escape_codepoint_printable|].
    exact IHp.
  - rewrite length_app, length_map. cbn [length].
    pose proof (EscapeFacts.escape_codepoint_length ch).
    unfold codepoint in *. lia.
Qed.

(** X2.  A text of printable ASCII characters without a backslash comes out
    of line 15 as it went in. *)
Theorem escaped_plain_text_is_verbatim (s : pystr) :
  Forall (fun c => printable c /\ c <> backslash) s -> escaped s = s.
Proof.
  induction 1 as [|ch s [Hp Hb] _ IH]; [reflexivity|].
  rewrite escaped_cons, IH.
  now rewrite (EscapeFacts.escape_codepoint_verbatim ch Hp Hb).
Qed.

Lemma escaped_plain_text_is_verbatim_witness :
  escaped (lit "libGPC: 100% ~ok~") = lit "libGPC: 100% ~ok~".
Proof.
  apply (escaped_plain_text_is_verbatim (lit "libGPC: 100% ~ok~")).
  repeat (constructor;
          [split; [split; [apply N.leb_le | apply N.ltb_lt]; reflexivity
                  | discriminate]|]).
  constructor.
Defined.

Module InjectFacts.
Import Codec CodecFacts EscapeFacts.
Local Open Scope N_scope.

Ltac bool_hyps' :=
  repeat match goal with
         | H : negb _ = true |- _ => apply negb_true_iff in H
         | H : negb _ = false |- _ => apply negb_false_iff in H
         | H : (_ && _) = false |- _ => apply andb_false_iff in H
         | H : (_ <=? _) = false |- _ => apply N.leb_gt in H
         end;
  bool_hyps.

Lemma hexdigit_inj (n m : N) :
  n < 16 -> m < 16 ->
  Byte.to_N (hexdigit n) = Byte.to_N (hexdigit m) -> n = m.
Proof.
  intros Hn Hm. rewrite !to_N_hexdigit by assumption.
  destruct (n <? 10) eqn:En, (m <? 10) eqn:Em; bool_hyps; lia.
Qed.

(** Hexadecimal digits of fixed width are read back unambiguously, also
    when something follows them. *)
Lemma hexdigits_inj (w : nat) :
  forall (c d : N) (X Y : pystr),
    c < 16 ^ N.of_nat w -> d < 16 ^ N.of_nat w ->
    map Byte.to_N (hexdigits w c) ++ X = map Byte.to_N (hexdigits w d) ++ Y ->
    c = d /\ X = Y.
Proof.
  induction w as [|w IH]; intros c d X Y Hc Hd H.
  - cbn in Hc, Hd, H. split; [lia | exact H].
  - rewrite Nat2N.inj_succ, N.pow_succ_r' in Hc, Hd.
    cbn [hexdigits] in H. rewrite !map_app, <- !app_assoc in H.
    apply IH in H as [Hq Ht];
      [| apply N.Div0.div_lt_upper_bound; lia | apply N.Div0.div_lt_upper_bound; lia].
    cbn [map app] in Ht. injection Ht as Hr HXY.
    apply hexdigit_inj in Hr; [| apply N.mod_lt; lia | apply N.mod_lt; lia].
    split; [|exact HXY].
    rewrite (N.div_mod c 16), (N.div_mod d 16) by lia. now rewrite Hq, Hr.
Qed.

(** What the codec writes for one code point is read back unambiguously:
    no escape is a prefix of another, and each names its code point. *)
Lemma escape_codepoint_inj (c d : codepoint) (X Y : pystr) :
  c <= 0x10FFFF -> d <= 0x10FFFF ->
  map Byte.to_N (escape_codepoint c) ++ X
  = map Byte.to_N (escape_codepoint d) ++ Y ->
  c = d /\ X = Y.
Proof.
  intros Hc Hd. unfold escape_codepoint.
  repeat match goal with
         | |- context [if ?b then _ else _] => destruct b eqn:?
         end;
    bool_hyps'; cbn [map app]; rewrite ?to_N_octet by lia; intros Heq;
    first
      [ exfalso; injection Heq; intros; lia
      | pose proof (f_equal (fun l => tl (tl l)) Heq) as Heq';
        cbn [tl] in Heq';
        first
          [ apply (hexdigits_inj 2) in Heq';
            [exact Heq' | change (16 ^ N.of_nat 2) with 256; lia ..]
          | apply (hexdigits_inj 4) in Heq';
            [exact Heq' | change (16 ^ N.of_nat 4) with 65536; lia ..]
          | apply (hexdigits_inj 8) in Heq';
            [exact Heq' | change (16 ^ N.of_nat 8) with 4294967296; lia ..] ]
      | injection Heq; intros; split; [lia | assumption] ].
Qed.

Lemma continuation_bound (b : Byte.byte) (c : N) :
  continuation b = Some c -> c < 64.
Proof.
  unfold continuation. destruct (_ && _) eqn:E; [|discriminate].
  intros [= <-]. bool_hyps. lia.
Qed.

Lemma small_is_no_surrogate (c : N) : c < 0xD800 -> surrogate c = false.
Proof.
  intros H. unfold surrogate. apply andb_false_iff. left.
  apply N.leb_gt. exact H.
Qed.

Lemma large_is_no_surrogate (c : N) : 0xDFFF < c -> surrogate c = false.
Proof.
  intros H. unfold surrogate. apply andb_false_iff. right.
  apply N.leb_gt. exact H.
Qed.

Lemma utf8_decode_scalar_values (n : nat) :
  forall (bs : pybytes) (s : pystr),
    (length bs <= n)%nat ->
    utf8_decode bs = Some s ->
    Forall scalar_value s /\ (length s <= length bs)%nat.
Proof.
  induction n as [|n IH]; intros bs s Hlen H.
  - destruct bs; [|cbn in Hlen; lia].
    injection H as <-. split; [constructor | cbn; lia].
  - destruct bs as [|b0 r0];
      [injection H as <-; split; [constructor | cbn; lia]|].
    cbn [utf8_decode] in H. cbv zeta in H.
    pose proof (Byte.to_N_bounded b0) as Hb0.
    repeat match type of H with
           | context [if ?b then _ else _] => destruct b eqn:?
           | context [match ?x with _ => _ end] => destruct x eqn:?
           end; try discriminate;
      injection H as <-;
      match goal with
      | E : utf8_decode ?r = Some ?l |- _ =>
        apply IH in E as [IHs IHl]; [|cbn [length] in *; lia]
      end;
      repeat match goal with
             | E : continuation _ = Some _ |- _ =>
               apply continuation_bound in E
             end;
      bool_hyps'; (split; [|cbn [length] in *; lia]);
      (constructor; [|exact IHs]); split;
      first [ lia
            | assumption
            | apply negb_true_iff; assumption
            | apply small_is_no_surrogate; lia
            | apply large_is_no_surrogate; lia ].
Qed.

End InjectFacts.

(** X3.  On texts of Unicode scalar values the escaping of line 15 loses
    nothing: two texts with the same escaped form are the same text. *)
Theorem escaped_is_injective (s t : pystr) :
  Forall scalar_value s -> Forall scalar_value t ->
  escaped s = escaped t -> s = t.
Proof.
  intros Hs. revert t.
  induction Hs as [|c s [Hc _] _ IH]; intros t Ht H.
  - destruct t as [|d t]; [reflexivity|].
    rewrite escaped_cons in H. apply (f_equal (@length N)) in H.
    rewrite length_app, length_map in H. cbn [escaped length] in H.
    pose proof (EscapeFacts.escape_codepoint_length d). cbn in H. lia.
  - destruct Ht as [|d t [Hd _] Ht].
    + rewrite escaped_cons in H. apply (f_equal (@length N)) in H.
      rewrite length_app, length_map in H.
      pose proof (EscapeFacts.escape_codepoint_length c). cbn in H. lia.
    + rewrite !escaped_cons in H.
      apply InjectFacts.escape_codepoint_inj in H as [-> H]; [|assumption..].
      f_equal. now apply IH.
Qed.

Lemma escaped_is_injective_witness :
  [97; 9; 233]%N = lit "a" ++ [9; 233]%N.
Proof.
  apply (escaped_is_injective [97; 9; 233]%N (lit "a" ++ [9; 233]%N)).
  - repeat (constructor; [split; [apply N.leb_le|]; reflexivity|]).
    constructor.
  - repeat (constructor; [split; [apply N.leb_le|]; reflexivity|]).
    constructor.
  - reflexivity.
Defined.

(** X4.  The text [Value.string] hands to line 15 holds Unicode scalar
    values only (no surrogate, nothing above U+10FFFF) and has at most one
    character for each octet fetched. *)
Theorem utf8_decode_yields_scalar_values (bs : pybytes) (s : pystr) :
  Codec.utf8_decode bs = Some s ->
  Forall scalar_value s /\ (length s <= length bs)%nat.
Proof.
  apply (InjectFacts.utf8_decode_scalar_values (length bs)). lia.
Qed.

Lemma utf8_decode_yields_scalar_values_witness :
  Forall scalar_value [97; 233; 8364; 128512]%N
  /\ (length [97; 233; 8364; 128512]%N
      <= length (map Codec.octet
                   [0x61; 0xC3; 0xA9; 0xE2; 0x82; 0xAC; 0xF0; 0x9F; 0x98; 0x80]%N))%nat.
Proof.
  apply (utf8_decode_yields_scalar_values
           (map Codec.octet
              [0x61; 0xC3; 0xA9; 0xE2; 0x82; 0xAC; 0xF0; 0x9F; 0x98; 0x80]%N)).
  reflexivity.
Defined.

(** ** More on to_string *)








(** *** What to_string can raise *)









(** X7.  With the length member holding 0 nothing of the text is read: the
    output is two double quotes, a comma, a space and the header, whatever
    the memory holds or refuses at the address of the text. *)
Theorem to_string_of_empty_text
    (inf : inferior) (st : state) (ty lenty : gdb_type) (a off : Z)
    (shown : pystr) :
  let header_at := (a - 1 * sizeof inf T_header)%Z in
  globals st !! "gdb" = Some PyModuleGdb ->
  has_type inf (lit "GPStringHeader") = true ->
  has_type inf (lit "char") = true ->
  field inf T_header (lit "length") = Some (off, lenty) ->
  fetch_int inf lenty (header_at + off) = inr 0%Z ->
  format inf (Object T_header header_at) = inr shown ->
  fst (to_string inf {| val := Scalar ty a |} st)
  = Ok ([dquote; dquote] ++ lit ", " ++ shown).
Proof.
  intros header_at Hgdb Hhdr Hchar Hfield Hlen Hshown.
  rewrite (to_string_run inf st ty lenty a off 0 Hgdb Hhdr Hchar Hfield Hlen)
    by lia.
  fold header_at. rewrite Hshown. reflexivity.
Qed.

Lemma to_string_of_empty_text_witness :
  fst (to_string Demo.empty {| val := Demo.handle |} Demo.loaded)
  = Ok ([dquote; dquote] ++ lit ", " ++ lit "{length = 0}").
Proof.
  apply (to_string_of_empty_text Demo.empty Demo.loaded
           (TNamed (lit "GPString")) (TNamed (lit "size_t")) 1000 24
           (lit "{length = 0}"));
    reflexivity.
Defined.

Lemma read_memory_unreadable (inf : inferior) (n : nat) :
  forall a x : Z,
    (a <= x < a + Z.of_nat n)%Z ->
    memory inf x = None ->
    exists e : exn, read_memory inf a n = inl e.
Proof.
  induction n as [|n IH]; intros a x Hx Hnone; [lia|].
  cbn [read_memory].
  destruct (memory inf a) as [b|] eqn:E; [|now eexists].
  destruct (Z.eq_dec a x) as [->|Hne]; [congruence|].
  destruct (IH (a + 1)%Z x) as [e He]; [lia | exact Hnone |].
  rewrite He. now exists e.
Qed.

(** X8.  When an octet of the text cannot be read, [to_string] raises the
    fault of the string fetch, which is then the last call it makes: the
    header is not rendered and no part of the text is returned. *)
Theorem to_string_of_unreadable_text
    (inf : inferior) (st : state) (ty lenty : gdb_type) (a off L x : Z) :
  let header_at := (a - 1 * sizeof inf T_header)%Z in
  let self := {| val := Scalar ty a |} in
  globals st !! "gdb" = Some PyModuleGdb ->
  has_type inf (lit "GPStringHeader") = true ->
  has_type inf (lit "char") = true ->
  field inf T_header (lit "length") = Some (off, lenty) ->
  fetch_int inf lenty (header_at + off) = inr L ->
  (a <= x < a + L)%Z ->
  memory inf x = None ->
  exists e : exn,
    fst (to_string inf self st) = Raise e
    /\ map ev_call (new_calls st (snd (to_string inf self st)))
       = calls_to_fetch inf (Scalar ty a) a off lenty
    /\ last (new_calls st (snd (to_string inf self st)))
       = Some (failed (CString (Scalar (TPointer T_char) a)
                               (Object lenty (header_at + off))) e).
Proof.
  intros header_at self Hgdb Hhdr Hchar Hfield Hlen Hx Hnone.
  subst self.
  rewrite (to_string_run inf st ty lenty a off L Hgdb Hhdr Hchar Hfield Hlen)
    by lia.
  fold header_at. unfold fetched_text.
  destruct (read_memory_unreadable inf (Z.to_nat L) a x) as [e He];
    [lia | exact Hnone |].
  rewrite He. exists e.
  cbn [fst snd]. rewrite new_calls_recorded.
  repeat apply conj.
  - reflexivity.
  - rewrite map_app, map_ev_call_passed. reflexivity.
  - apply last_snoc.
Qed.

Lemma to_string_of_unreadable_text_witness :
  exists e : exn,
    fst (to_string (with_memory Demo.debuggee Demo.torn_memory)
           {| val := Demo.handle |} Demo.loaded)
    = Raise e.
Proof.
  destruct (to_string_of_unreadable_text
              (with_memory Demo.debuggee Demo.torn_memory) Demo.loaded
              (TNamed (lit "GPString")) (TNamed (lit "size_t"))
              1000 24 3 1001
              eq_refl eq_refl eq_refl eq_refl eq_refl ltac:(lia) eq_refl)
    as (e & He & _).
  exists e. exact He.
Defined.

(** X9.  When the text holds no double quote, a reader of double-quoted
    literals finds in the output exactly the escaped text as the body of
    the literal, and the comma, the space and the header after it. *)
Theorem quote_free_text_reads_back_whole
    (inf : inferior) (st : state) (ty lenty : gdb_type) (a off L : Z)
    (bs : pybytes) (text shown out : pystr) :
  let header_at := (a - 1 * sizeof inf T_header)%Z in
  globals st !! "gdb" = Some PyModuleGdb ->
  has_type inf (lit "GPStringHeader") = true ->
  has_type inf (lit "char") = true ->
  field inf T_header (lit "length") = Some (off, lenty) ->
  fetch_int inf lenty (header_at + off) = inr L ->
  Z.of_nat (length bs) = L ->
  buffer_at inf a bs ->
  Codec.utf8_decode bs = Some text ->
  format inf (Object T_header header_at) = inr shown ->
  dquote ∉ text ->
  fst (to_string inf {| val := Scalar ty a |} st) = Ok out ->
  read_literal out = Some (escaped text, lit ", " ++ shown).
Proof.
  intros header_at Hgdb Hhdr Hchar Hfield Hlen HL Hbuf Hutf Hshown Hq Hout.
  rewrite (to_string_ok inf st ty lenty a off L bs text shown
             Hgdb Hhdr Hchar Hfield Hlen HL Hbuf Hutf Hshown) in Hout.
  injection Hout as <-.
  cbn [app read_literal]. change (dquote =? dquote)%N with true. cbn match.
  rewrite (LiteralFacts.scan_escaped text _ Hq).
  cbn [scan_literal]. change (dquote =? dquote)%N with true.
  cbn. now rewrite app_nil_r.
Qed.

Lemma quote_free_text_reads_back_whole_witness :
  read_literal ([dquote] ++ lit "abc" ++ [dquote] ++ lit ", {length = 3}")
  = Some (escaped (lit "abc"), lit ", " ++ lit "{length = 3}").
Proof.
  apply (quote_free_text_reads_back_whole
           (with_memory Demo.debuggee Demo.abc_memory) Demo.loaded
           (TNamed (lit "GPString")) (TNamed (lit "size_t")) 1000 24 3
           [Byte.x61; Byte.x62; Byte.x63] (lit "abc") (lit "{length = 3}")).
  - reflexivity.
  - reflexivity.
  - reflexivity.
  - reflexivity.
  - reflexivity.
  - reflexivity.
  - intros [|[|[|i]]] b; simpl; intros [= <-]; reflexivity.
  - reflexivity.
  - reflexivity.
  - intros Hin. apply list_elem_of_In in Hin.
    cbn in Hin. intuition discriminate.
  - reflexivity.
Defined.

(** ** More on the lookup functions and on loading *)

(** X10.  In a namespace that binds StringPrinter to the class, a lookup
    function given a handle whose type renders as the text it compares with
    returns a formatter that holds that very handle (the constructor stores
    its argument in the attribute val), so that [to_string] of the formatter
    is [to_string] on the handle that was looked up; the state is not
    changed. *)
Theorem matching_lookup_wraps_the_handle (st : state) (v : gdb_value) :
  globals st !! "StringPrinter" = Some PyClassGPStringPrinter ->
  (type_name v = lit "GPString" ->
   gp_str_lookup_function v st = (Ok (PyPrinter {| val := v |}), st))
  /\ (type_name v = lit "const GPString" ->
      gp_const_str_lookup_function v st
      = (Ok (PyPrinter {| val := v |}), st)).
Proof.
  intros Hb.
  assert (Hc : construct_printer v st = (Ok (PyPrinter {| val := v |}), st)).
  { unfold construct_printer, bind, load_name. rewrite Hb.
    unfold frames_left. now rewrite call_S. }
  split; intros Hn.
  - now rewrite (gp_str_lookup_function_hit st v Hn).
  - now rewrite (gp_const_str_lookup_function_hit st v Hn).
Qed.

Lemma matching_lookup_wraps_the_handle_witness :
  gp_str_lookup_function Demo.handle Demo.aliased
  = (Ok (PyPrinter {| val := Demo.handle |}), Demo.aliased).
Proof.
  apply (proj1 (matching_lookup_wraps_the_handle Demo.aliased Demo.handle
                  eq_refl)).
  reflexivity.
Defined.

(** X11.  No handle is taken by both lookup functions: when one of them
    returns something other than None, the other returns None, in any
    state. *)
Theorem lookup_functions_exclude_each_other
    (st st' other : state) (v : gdb_value) (r : pyval) :
  r <> PyNone ->
  (gp_str_lookup_function v st = (Ok r, st') ->
   gp_const_str_lookup_function v other = (Ok PyNone, other))
  /\ (gp_const_str_lookup_function v st = (Ok r, st') ->
      gp_str_lookup_function v other = (Ok PyNone, other)).
Proof.
  intros Hr. split; intros H.
  - apply gp_const_str_lookup_function_miss. intros Hn.
    rewrite gp_str_lookup_function_miss in H.
    + injection H as <- _. contradiction.
    + rewrite Hn. discriminate.
  - apply gp_str_lookup_function_miss. intros Hn.
    rewrite gp_const_str_lookup_function_miss in H.
    + injection H as <- _. contradiction.
    + rewrite Hn. discriminate.
Qed.

Lemma lookup_functions_exclude_each_other_witness :
  gp_const_str_lookup_function Demo.handle Demo.loaded
  = (Ok PyNone, Demo.loaded).
Proof.
  refine (proj1 (lookup_functions_exclude_each_other
                   Demo.aliased Demo.aliased Demo.loaded Demo.handle
                   (PyPrinter {| val := Demo.handle |}) _) _).
  - discriminate.
  - vm_compute. reflexivity.
Defined.

Lemma definitions_run_from (st : state) :
  definitions st = (Ok tt, after_definitions st).
Proof. reflexivity. Qed.

Lemma after_definitions_other (st : state) (name : string) :
  name <> "gdb" -> name <> "GPStringPrinter" ->
  name <> "gp_str_lookup_function" ->
  name <> "gp_const_str_lookup_function" ->
  globals (after_definitions st) !! name = globals st !! name.
Proof.
  intros H1 H2 H3 H4. unfold after_definitions. cbn [globals].
  now rewrite !lookup_insert_ne by congruence.
Qed.

Lemma after_definitions_gdb (st : state) :
  globals (after_definitions st) !! "gdb" = Some PyModuleGdb.
Proof. unfold after_definitions. cbn [globals]. now simplify_map_eq. Qed.

Lemma register_bound (name : string) (x : pyval) (st : state) :
  globals st !! "gdb" = Some PyModuleGdb ->
  globals st !! name = Some x ->
  register name st = (Ok tt, appended st [x]).
Proof.
  intros Hg Hn. unfold register.
  rewrite (bind_ok _ _ _ _ _ (gdb_module_ok st Hg)).
  unfold bind, load_name. now rewrite Hn.
Qed.

(** X12.  In a session whose namespace already binds str_lookup_function
    and const_str_lookup_function, to [x] and to [y], the script runs to
    its end and appends [x] and then [y] to the end of gdb's list of
    pretty-printers, keeping what the list held: it registers what those
    two names stand for, not the two functions it defines. *)
Theorem script_registers_what_the_names_are_bound_to
    (st : state) (x y : pyval) :
  globals st !! "str_lookup_function" = Some x ->
  globals st !! "const_str_lookup_function" = Some y ->
  script st = (Ok tt, appended (after_definitions st) [x; y]).
Proof.
  intros Hx Hy. unfold script.
  rewrite (bind_ok _ _ _ _ _ (definitions_run_from st)).
  assert (H28 : line_28 (after_definitions st)
                = (Ok tt, appended (after_definitions st) [x])).
  { apply register_bound; [apply after_definitions_gdb|].
    rewrite after_definitions_other by discriminate. exact Hx. }
  rewrite (bind_ok _ _ _ _ _ H28).
  unfold line_29.
  rewrite (register_bound "const_str_lookup_function" y).
  - unfold appended. cbn [globals pretty_printers calls].
    now rewrite <- app_assoc.
  - apply after_definitions_gdb.
  - cbn [appended globals].
    rewrite after_definitions_other by discriminate. exact Hy.
Qed.

Lemma script_registers_what_the_names_are_bound_to_witness :
  fst (script Demo.preloaded) = Ok tt
  /\ pretty_printers (snd (script Demo.preloaded))
     = [PyNone; PyNone; PyClassGPStringPrinter].
Proof.
  rewrite (script_registers_what_the_names_are_bound_to
             Demo.preloaded PyNone PyClassGPStringPrinter eq_refl eq_refl).
  split; reflexivity.
Defined.

(** X13.  In a session whose namespace binds str_lookup_function, to [x],
    but not const_str_lookup_function, the script appends [x] at line 28
    and then stops at line 29 with the NameError of
    const_str_lookup_function: the first registration is not undone. *)
Theorem script_keeps_the_first_registration
    (st : state) (x : pyval) :
  globals st !! "str_lookup_function" = Some x ->
  globals st !! "const_str_lookup_function" = None ->
  script st
  = (Raise (NameError "const_str_lookup_function"),
     appended (after_definitions st) [x]).
Proof.
  intros Hx Hy. unfold script.
  rewrite (bind_ok _ _ _ _ _ (definitions_run_from st)).
  assert (H28 : line_28 (after_definitions st)
                = (Ok tt, appended (after_definitions st) [x])).
  { apply register_bound; [apply after_definitions_gdb|].
    rewrite after_definitions_other by discriminate. exact Hx. }
  rewrite (bind_ok _ _ _ _ _ H28).
  unfold line_29. apply register_unbound.
  - apply after_definitions_gdb.
  - cbn [appended globals].
    rewrite after_definitions_other by discriminate. exact Hy.
Qed.

Lemma script_keeps_the_first_registration_witness :
  fst (script Demo.half_loaded) = Raise (NameError "const_str_lookup_function")
  /\ pretty_printers (snd (script Demo.half_loaded)) = [PyNone; PyNone].
Proof.
  rewrite (script_keeps_the_first_registration
             Demo.half_loaded PyNone eq_refl eq_refl).
  split; reflexivity.
Defined.

(** X14.  Whatever the namespace held before, once the script has run
    past its definitions (whether or not the registrations then fail) the
    names gdb, GPStringPrinter, gp_str_lookup_function and
    gp_const_str_lookup_function are bound to the module, the class and the
    two functions, every other name is bound as it was, and the name
    StringPrinter that the lookup functions call is bound only if it was
    before. *)
Theorem script_leaves_its_definitions_bound (st : state) (name : string) :
  let after := globals (snd (script st)) in
  after !! "gdb" = Some PyModuleGdb
  /\ after !! "GPStringPrinter" = Some PyClassGPStringPrinter
  /\ after !! "gp_str_lookup_function"
     = Some (PyFunction Fgp_str_lookup_function)
  /\ after !! "gp_const_str_lookup_function"
     = Some (PyFunction Fgp_const_str_lookup_function)
  /\ after !! "StringPrinter" = globals st !! "StringPrinter"
  /\ (name <> "gdb" -> name <> "GPStringPrinter" ->
      name <> "gp_str_lookup_function" ->
      name <> "gp_const_str_lookup_function" ->
      after !! name = globals st !! name).
Proof.
  intros after.
  assert (Hg : after = globals (after_definitions st)).
  { subst after. unfold script, line_28, line_29.
    rewrite (bind_ok _ _ _ _ _ (definitions_run_from st)).
    pose proof (after_definitions_gdb st) as Hgdb.
    destruct (globals (after_definitions st) !! "str_lookup_function")
      as [x|] eqn:E1.
    - rewrite (bind_ok _ _ _ _ _ (register_bound _ x _ Hgdb E1)).
      destruct (globals (after_definitions st) !! "const_str_lookup_function")
        as [y|] eqn:E2.
      + now rewrite (register_bound "const_str_lookup_function" y
                       (appended (after_definitions st) [x]) Hgdb E2).
      + now rewrite (register_unbound "const_str_lookup_function"
                       (appended (after_definitions st) [x]) Hgdb E2).
    - now rewrite (bind_raise _ _ _ _ _ (register_unbound _ _ Hgdb E1)). }
  rewrite Hg. repeat apply conj.
  - apply after_definitions_gdb.
  - unfold after_definitions. cbn [globals]. now simplify_map_eq.
  - unfold after_definitions. cbn [globals]. now simplify_map_eq.
  - unfold after_definitions. cbn [globals]. now simplify_map_eq.
  - apply after_definitions_other; discriminate.
  - apply after_definitions_other.
Qed.

Lemma script_leaves_its_definitions_bound_witness :
  globals (snd (script Demo.half_loaded)) !! "str_lookup_function"
  = Some PyNone.
Proof.
  refine (eq_trans
            (proj2 (proj2 (proj2 (proj2 (proj2
               (script_leaves_its_definitions_bound
                  Demo.half_loaded "str_lookup_function")))))
               _ _ _ _) _);
    first [discriminate | reflexivity].
Defined.
